(** * mailbox_poll: a mail-to-chat relay

    A shallow embedding of [mailbox_poll.py]: the connection wrapper
    [imap_trace], the folder prompt [select_email_folder], the polling job
    [scan_email] and the chat commands [set_timer] and [unset].

    The script talks to three libraries: [imaplib] (the mailbox), [email]
    (the MIME parser) and [telegram.ext] (the bot and its job queue).  Their
    objects are modelled by what the script observes of them:
    - an [IMAP4] connection is a record of answers, one per method, each
      either a returned value or a raised exception;
    - a parsed message is a tree of MIME parts;
    - the job queue is the list of scheduled jobs, oldest first;
    - every call that leaves the process (mailbox commands, bot messages,
      console output) is appended to a trace, so that order can be stated.

    Python exceptions are an explicit outcome; the functions live in a
    state-and-exception monad over the [World].

    Text: a [bytes] value is its bytes; a [str] value is held as its UTF-8
    bytes, so that every string a chat or a console can deliver has a
    place in the model. *)

From Stdlib Require Import ZArith Lia Ascii String.
From stdpp Require Import base option list strings gmap pretty.

Local Open Scope Z_scope.
Local Open Scope string_scope.
Local Open Scope list_scope.

(** ** Exceptions and outcomes *)

Inductive Exn :=
| IndexError
| ValueError
| KeyError
| AttributeError
| TypeError
| EOFError
| OverflowError
| UnicodeDecodeError
| JobLookupError
| LibraryError (name : string).

Global Instance Exn_eq_dec : EqDecision Exn.
Proof. solve_decision. Defined.

Inductive Outcome (A : Type) :=
| Ret (a : A)
| Raise (e : Exn).
Arguments Ret {A} a.
Arguments Raise {A} e.

(** ** Text helpers: [bytes.split()], [str.split(sep)], [bytes.decode()],
    [int(str)], [str(int)] *)

Module Py.

(** ASCII whitespace of [bytes.split()]: space, tab, newline, return,
    vertical tab, form feed. *)
Definition bytes_isspace (a : ascii) : bool :=
  let n := nat_of_ascii a in
  ((9 <=? n) && (n <=? 13) || (n =? 32))%nat.

Definition flush (cur : string) : list string :=
  match cur with "" => [] | _ => [cur] end.

Fixpoint split_go (cur : string) (s : string) : list string :=
  match s with
  | "" => flush cur
  | String a s' =>
      if bytes_isspace a then flush cur ++ split_go "" s'
      else split_go (cur +:+ String a "") s'
  end.

(** [b.split()] with no separator: runs of whitespace separate, empty
    fields are dropped. *)
Definition bytes_split (s : string) : list string := split_go "" s.

Fixpoint strip_prefix (p s : string) : option string :=
  match p, s with
  | "", _ => Some s
  | String a p', String b s' => if decide (a = b) then strip_prefix p' s' else None
  | String _ _, "" => None
  end.

Fixpoint split_sep_go (sep : string) (cur : string) (s : string) (fuel : nat)
  : list string :=
  match fuel with
  | O => [cur +:+ s]
  | S fuel' =>
      match strip_prefix sep s with
      | Some rest => cur :: split_sep_go sep "" rest fuel'
      | None =>
          match s with
          | "" => [cur]
          | String a s' => split_sep_go sep (cur +:+ String a "") s' fuel'
          end
      end
  end.

(** [s.split(sep)] for a non-empty separator: empty fields are kept.  The
    recursion consumes at least one character per step, so the length of
    [s] plus one is enough fuel. *)
Definition str_split (s sep : string) : list string :=
  split_sep_go sep "" s (S (String.length s)).

(** *** A [str] as UTF-8 bytes *)

Definition continuation (a : ascii) : option N :=
  let n := N_of_ascii a in
  if ((128 <=? n) && (n <? 192))%N then Some (n - 128)%N else None.

(** The code points of a [str] held as UTF-8 bytes; [None] when the bytes
    are not UTF-8 (stray or missing continuation bytes, overlong forms,
    surrogates, values above 0x10FFFF), as the strict decoder has it. *)
Fixpoint code_points (s : string) : option (list N) :=
  match s with
  | "" => Some []
  | String a s1 =>
      let n := N_of_ascii a in
      if (n <? 128)%N then cons n <$> code_points s1
      else if (n <? 192)%N then None
      else if (n <? 224)%N then
        match s1 with
        | String b s2 =>
            match continuation b with
            | Some x =>
                let cp := ((n - 192) * 64 + x)%N in
                if (cp <? 128)%N then None else cons cp <$> code_points s2
            | None => None
            end
        | "" => None
        end
      else if (n <? 240)%N then
        match s1 with
        | String b (String c s3) =>
            match continuation b, continuation c with
            | Some x, Some y =>
                let cp := (((n - 224) * 64 + x) * 64 + y)%N in
                if ((cp <? 2048) || (55296 <=? cp) && (cp <? 57344))%N then None
                else cons cp <$> code_points s3
            | _, _ => None
            end
        | _ => None
        end
      else if (n <? 248)%N then
        match s1 with
        | String b (String c (String d s4)) =>
            match continuation b, continuation c, continuation d with
            | Some x, Some y, Some z =>
                let cp := ((((n - 240) * 64 + x) * 64 + y) * 64 + z)%N in
                if ((cp <? 65536) || (1114111 <? cp))%N then None
                else cons cp <$> code_points s4
            | _, _, _ => None
            end
        | _ => None
        end
      else None
  end.

(** [b.decode()], strict UTF-8: the same bytes read as a [str], or [None]
    for [UnicodeDecodeError]. *)
Definition decode (b : string) : option string :=
  match code_points b with
  | Some _ => Some b
  | None => None
  end.

(** *** [int(s)] on a [str] *)

(** The white space of the Unicode database outside ASCII. *)
Definition unicode_spaces : list N :=
  [133; 160; 5760; 8192; 8193; 8194; 8195; 8196; 8197; 8198; 8199; 8200; 8201;
   8202; 8232; 8233; 8239; 8287; 12288]%N.

(** The zeros of the decimal digits of the Unicode database (version 14)
    outside ASCII; the digits 1..9 of a script follow its zero. *)
Definition unicode_zeros : list N :=
  [1632; 1776; 1984; 2406; 2534; 2662; 2790; 2918; 3046; 3174; 3302; 3430; 3558;
   3664; 3792; 3872; 4160; 4240; 6112; 6160; 6470; 6608; 6784; 6800; 6992; 7088;
   7232; 7248; 42528; 43216; 43264; 43472; 43504; 43600; 44016; 65296; 66720;
   68912; 69734; 69872; 69942; 70096; 70384; 70736; 70864; 71248; 71360; 71472;
   71904; 72016; 72784; 73040; 73120; 92768; 92864; 93008; 120782; 120792;
   120802; 120812; 120822; 123200; 123632; 125264; 130032]%N.

Definition decimal_value (cp : N) : option N :=
  (fun zero => cp - zero)%N
    <$> List.find (fun zero => (zero <=? cp) && (cp <? zero + 10))%N unicode_zeros.

(** What [int] makes of one character before it parses: a character below
    127 stays, other white space becomes a space, another decimal digit
    becomes its ASCII digit, anything else fails. *)
Definition to_ascii (cp : N) : option ascii :=
  if (cp <? 127)%N then Some (ascii_of_N cp)
  else if existsb (N.eqb cp) unicode_spaces then Some " "%char
  else (fun d => ascii_of_N (48 + d)) <$> decimal_value cp.

Fixpoint transform (cps : list N) : option string :=
  match cps with
  | [] => Some ""
  | cp :: rest =>
      match to_ascii cp with
      | Some a => String a <$> transform rest
      | None => None
      end
  end.

(** White space is dropped at both ends only. *)
Fixpoint lstrip (s : string) : string :=
  match s with
  | String a s' => if bytes_isspace a then lstrip s' else s
  | "" => ""
  end.

Definition strip (s : string) : string :=
  String.rev (lstrip (String.rev (lstrip s))).

Definition digit_of (a : ascii) : option Z :=
  let n := nat_of_ascii a in
  if ((48 <=? n) && (n <=? 57))%nat then Some (Z.of_nat n - 48) else None.

(** The default of [sys.get_int_max_str_digits()]. *)
Definition max_str_digits : nat := 4300.

(** Decimal digits with single underscores allowed between digits; more
    digits than the limit are refused. *)
Fixpoint int_digits (acc : Z) (count : nat) (after_digit : bool) (s : string)
  : option Z :=
  match s with
  | "" => if after_digit && (count <=? max_str_digits)%nat then Some acc else None
  | String a s' =>
      match digit_of a with
      | Some d => int_digits (10 * acc + d) (S count) true s'
      | None =>
          if decide (a = "_"%char) then
            if after_digit then int_digits acc count false s' else None
          else None
      end
  end.

(** [int(s)] for a [str]: white space around is dropped, one sign is
    allowed, then decimal digits of any script.  [None] stands for
    [ValueError]. *)
Definition int (s : string) : option Z :=
  match code_points s with
  | None => None
  | Some cps =>
      match transform cps with
      | None => None
      | Some t =>
          match strip t with
          | String "-" r => Z.opp <$> int_digits 0 0 false r
          | String "+" r => int_digits 0 0 false r
          | r => int_digits 0 0 false r
          end
      end
  end.

(** The separator the folder prompt splits a LIST line on: space, quote,
    slash, quote, space. *)
Definition dquote : string := String (ascii_of_nat 34) "".
Definition folder_sep : string := " " +:+ dquote +:+ "/" +:+ dquote +:+ " ".

(** [str(n)] for an integer. *)
Definition str (n : Z) : string := pretty n.

End Py.

(** ** Parsed mail: [email.message.Message] *)

(** A message is either a single part with a string payload or a multipart
    container whose payload is the list of its sub-messages
    ([is_multipart()] is exactly "the payload is a list"). *)
#[warnings="-register-all"]
Inductive Message :=
| Leaf (content_type : string) (body : string)
| Multipart (content_type : string) (parts : list Message).

(** What [get_payload()] returns, which is also what ends up as the [text]
    of a bot message. *)
Inductive Payload :=
| Str (s : string)
| Parts (l : list Message).

Definition get_content_type (m : Message) : string :=
  match m with Leaf c _ => c | Multipart c _ => c end.

Definition get_payload (m : Message) : Payload :=
  match m with Leaf _ b => Str b | Multipart _ ps => Parts ps end.

(** [Message.walk()]: the message itself, then each sub-part's walk, depth
    first. *)
Fixpoint walk (m : Message) : list Message :=
  m :: match m with
       | Leaf _ _ => []
       | Multipart _ ps => flat_map walk ps
       end.

(** ** The mailbox connection: [imaplib.IMAP4_SSL] *)

(** One item of the data list a FETCH returns: a (header, body) pair for a
    delivered message, a bare byte string, or [None]. *)
Inductive FetchItem :=
| FPair (envelope body : string)
| FBytes (b : string)
| FNone.

(** The answers of one connection.  [imaplib] returns a (status, data) pair
    and raises on protocol or socket errors. *)
Record IMAP4 := {
  imap_login : string -> string -> Outcome unit;
  imap_list : Outcome (string * list (option string));
  imap_select : option string -> Outcome unit;
  imap_search : Outcome (string * list (option string));
  imap_fetch : string -> Outcome (string * list FetchItem);
  imap_close : Outcome unit;
  imap_logout : Outcome unit;
}.

(** ** The bot side: jobs, updates, callback contexts *)

(** A job callback.  [main] only ever schedules the wrapped [scan_email]. *)
Inductive Callable :=
| ScanJob
| OtherJob (label : string).

Record Job := {
  job_id : nat;
  job_callback : Callable;
  job_interval : Z;
  job_context : Z;
  job_name : string;
}.

Record Update := { chat_id : Z }.

Record CallbackContext := {
  args : list string;
  job : option Job;
}.

(** ** Settings: the [storage] dict built from the command line *)

Record Storage := {
  st_token : string;
  st_chat : Z;
  st_mail : string;
  st_login : string;
  st_password : string;
  st_folder : option string;
}.

Definition set_folder (f : option string) (s : Storage) : Storage :=
  {| st_token := st_token s; st_chat := st_chat s; st_mail := st_mail s;
     st_login := st_login s; st_password := st_password s; st_folder := f |}.

(** ** Observable calls *)

Inductive Event :=
| EvConnect (host : string)
| EvLogin (user password : string)
| EvList
| EvSelect (folder : option string)
| EvSearch
| EvFetch (id : string)
| EvClose
| EvLogout
| EvSend (chat : Z) (text : Payload)
| EvReply (chat : Z) (text : string)
| EvPrint (line : string)
| EvPrompt (text : string).

(** ** The world *)

(** [storage] is one dict, created in [main] and handed by reference to
    every wrapper, so it is part of the shared state; so is the job queue
    of the dispatcher.  [w_next_id] is the scheduler's supply of job ids,
    [w_clock] its clock: the whole seconds since the start of year 1, UTC. *)
Record World := {
  w_storage : Storage;
  w_jobs : list Job;
  w_next_id : nat;
  w_trace : list Event;
  w_stdin : list string;
  w_clock : Z;
}.

Definition with_storage (s : Storage) (w : World) : World :=
  {| w_storage := s; w_jobs := w_jobs w; w_next_id := w_next_id w;
     w_trace := w_trace w; w_stdin := w_stdin w; w_clock := w_clock w |}.

Definition with_jobs (q : list Job) (n : nat) (w : World) : World :=
  {| w_storage := w_storage w; w_jobs := q; w_next_id := n;
     w_trace := w_trace w; w_stdin := w_stdin w; w_clock := w_clock w |}.

Definition with_trace (t : list Event) (w : World) : World :=
  {| w_storage := w_storage w; w_jobs := w_jobs w; w_next_id := w_next_id w;
     w_trace := t; w_stdin := w_stdin w; w_clock := w_clock w |}.

Definition with_stdin (i : list string) (w : World) : World :=
  {| w_storage := w_storage w; w_jobs := w_jobs w; w_next_id := w_next_id w;
     w_trace := w_trace w; w_stdin := i; w_clock := w_clock w |}.

(** ** The monad *)

Definition M (A : Type) : Type := World -> Outcome A * World.

Definition ret {A} (a : A) : M A := fun w => (Ret a, w).

Definition raise {A} (e : Exn) : M A := fun w => (Raise e, w).

Definition bind {A B} (m : M A) (k : A -> M B) : M B :=
  fun w =>
    match m w with
    | (Ret a, w') => k a w'
    | (Raise e, w') => (Raise e, w')
    end.

Declare Scope py_scope.
Delimit Scope py_scope with py.
Notation "x <- m ;; k" := (bind m (fun x => k))
  (at level 100, m at next level, right associativity) : py_scope.
Notation "m ;;; k" := (bind m (fun _ => k))
  (at level 100, right associativity) : py_scope.
Local Open Scope py_scope.

(** An answer of a library, lifted: the value is returned or the exception
    raised, the world is left alone. *)
Definition answer {A} (o : Outcome A) : M A := fun w => (o, w).

(** [try: body finally: cleanup].  The clean-up always runs; when it raises,
    its exception replaces whatever the body did. *)
Definition try_finally {A} (body : M A) (cleanup : M unit) : M A :=
  fun w =>
    match body w with
    | (r, w1) =>
        match cleanup w1 with
        | (Ret _, w2) => (r, w2)
        | (Raise e, w2) => (Raise e, w2)
        end
    end.

(** [try: body except: pass] with a bare [except]. *)
Definition try_except_pass (body : M unit) : M unit :=
  fun w =>
    match body w with
    | (_, w1) => (Ret tt, w1)
    end.

(** [try: body except (classes): handler]. *)
Definition try_except {A} (body : M A) (catches : Exn -> bool) (handler : M A) : M A :=
  fun w =>
    match body w with
    | (Ret a, w1) => (Ret a, w1)
    | (Raise e, w1) => if catches e then handler w1 else (Raise e, w1)
    end.

(** [for x in l: body x]. *)
Fixpoint for_each {A} (l : list A) (body : A -> M unit) : M unit :=
  match l with
  | [] => ret tt
  | x :: l' => body x ;;; for_each l' body
  end.

(** [l[i]] on a list. *)
Definition index {A} (l : list A) (i : nat) : M A :=
  match l !! i with
  | Some x => ret x
  | None => raise IndexError
  end.

Definition emit (e : Event) : M unit :=
  fun w => (Ret tt, with_trace (w_trace w ++ [e]) w).

Definition get_storage : M Storage := fun w => (Ret (w_storage w), w).

(** [storage['folder'] = v]: the one shared dict is updated in place. *)
Definition set_storage_folder (v : string) : M unit :=
  fun w => (Ret tt, with_storage (set_folder (Some v) (w_storage w)) w).

(** ** Library calls *)

(** *** [imaplib]: each method is logged, then answers. *)

Definition mail_login (mail : IMAP4) (user password : string) : M unit :=
  emit (EvLogin user password) ;;; answer (imap_login mail user password).

Definition mail_list (mail : IMAP4) : M (string * list (option string)) :=
  emit EvList ;;; answer (imap_list mail).

Definition mail_select (mail : IMAP4) (folder : option string) : M unit :=
  emit (EvSelect folder) ;;; answer (imap_select mail folder).

Definition mail_search (mail : IMAP4) : M (string * list (option string)) :=
  emit EvSearch ;;; answer (imap_search mail).

Definition mail_fetch (mail : IMAP4) (id : string) : M (string * list FetchItem) :=
  emit (EvFetch id) ;;; answer (imap_fetch mail id).

Definition mail_close (mail : IMAP4) : M unit :=
  emit EvClose ;;; answer (imap_close mail).

Definition mail_logout (mail : IMAP4) : M unit :=
  emit EvLogout ;;; answer (imap_logout mail).

(** *** [telegram]: messages out.  Delivery is taken to succeed. *)

Definition send_message (chat : Z) (text : Payload) : M unit :=
  emit (EvSend chat text).

Definition reply_text (update : Update) (text : string) : M unit :=
  emit (EvReply (chat_id update) text).

(** [job.context] where [job] may be [None]. *)
Definition context_of (j : option Job) : M Z :=
  match j with
  | Some j => ret (job_context j)
  | None => raise AttributeError
  end.

(** *** [telegram.ext.JobQueue]

    The queue holds the jobs of the scheduler, as in the release of the
    library the script is written for (handlers receive a
    [CallbackContext] by default).  [get_jobs_by_name] returns the jobs
    carrying the name; [Job.schedule_removal] takes the job out of the
    scheduler at once (the scheduler raises when it does not hold the job
    any more); [run_repeating] adds a job under a fresh id.

    [run_repeating] builds the interval as a [timedelta] and the first run
    time as the clock's now plus the interval, so it raises
    [OverflowError] when the interval has more than 999999999 days or when
    that first run time leaves the calendar (years 1 to 9999).  An
    interval of zero is scheduled as one second. *)

Definition get_jobs_by_name (name : string) : M (list Job) :=
  fun w => (Ret (filter (fun j => job_name j = name) (w_jobs w)), w).

Definition schedule_removal (j : Job) : M unit :=
  fun w =>
    if bool_decide (job_id j ∈ job_id <$> w_jobs w) then
      (Ret tt,
       with_jobs (filter (fun j' => job_id j' ≠ job_id j) (w_jobs w)) (w_next_id w) w)
    else (Raise JobLookupError, w).

(** [timedelta(seconds=n)] exists. *)
Definition timedelta_ok (n : Z) : bool :=
  ((-999999999 <=? n / 86400) && (n / 86400 <=? 999999999))%Z.

(** The interval the scheduler runs the job at. *)
Definition effective_interval (n : Z) : Z :=
  if (n =? 0)%Z then 1 else n.

(** The seconds of the years 1 to 9999. *)
Definition calendar_end : Z := 315537897600.

(** The scheduler takes the interval [n] at the time [clock]. *)
Definition schedulable (clock n : Z) : bool :=
  timedelta_ok n
  && (0 <=? clock + effective_interval n)%Z
  && (clock + effective_interval n <? calendar_end)%Z.

Definition run_repeating (callback : Callable) (interval : Z) (context : Z)
    (name : string) : M Job :=
  fun w =>
    if schedulable (w_clock w) interval then
      let j := {| job_id := w_next_id w; job_callback := callback;
                  job_interval := effective_interval interval;
                  job_context := context; job_name := name |} in
      (Ret j, with_jobs (w_jobs w ++ [j]) (S (w_next_id w)) w)
    else (Raise OverflowError, w).

(** *** Console *)

Definition print (line : string) : M unit := emit (EvPrint line).

(** [input(prompt)]: the prompt is shown, one line is taken from standard
    input and decoded (standard input is UTF-8, strictly); at end of input
    [EOFError]. *)
Definition input (prompt : string) : M string :=
  emit (EvPrompt prompt) ;;;
  fun w =>
    match w_stdin w with
    | [] => (Raise EOFError, w)
    | line :: rest =>
        match Py.decode line with
        | Some s => (Ret s, with_stdin rest w)
        | None => (Raise UnicodeDecodeError, with_stdin rest w)
        end
    end.

(** [int(s)], raising. *)
Definition int (s : string) : M Z :=
  match Py.int s with
  | Some n => ret n
  | None => raise ValueError
  end.

(** [enumerate(l, start)]. *)
Fixpoint enumerate {A} (l : list A) (start : Z) : list (Z * A) :=
  match l with
  | [] => []
  | x :: l' => (start, x) :: enumerate l' (start + 1)
  end.

(** A [for] loop whose body updates a local variable. *)
Fixpoint for_fold {A S} (l : list A) (s : S) (body : S -> A -> M S) : M S :=
  match l with
  | [] => ret s
  | x :: l' => s' <- body s x ;; for_fold l' s' body
  end.

(** [b.decode()] and [b.split()] on a value that may be [None]. *)
Definition deref (o : option string) : M string :=
  match o with
  | Some b => ret b
  | None => raise AttributeError
  end.

(** [b.decode()] on a byte string. *)
Definition decode (b : string) : M string :=
  match Py.decode b with
  | Some s => ret s
  | None => raise UnicodeDecodeError
  end.

(** [data[0][1]] handed to the parser: the body of a (header, body) pair.
    Indexing a byte string yields an integer, which the parser rejects with
    [AttributeError] (or [IndexError] when the string is too short);
    indexing [None] is a [TypeError]. *)
Definition raw_message (data : list FetchItem) : M string :=
  item <- index data 0 ;;
  match item with
  | FPair _ body => ret body
  | FBytes (String _ (String _ _)) => raise AttributeError
  | FBytes _ => raise IndexError
  | FNone => raise TypeError
  end.

(** ** The script *)

Section Relay.

(** [imaplib.IMAP4_SSL(host)]: the connection the network gives, or the
    exception of a failed connect. *)
Variable IMAP4_SSL : string -> Outcome IMAP4.

(** [email.message_from_bytes]. *)
Variable message_from_bytes : string -> Message.

(** [imap_utf7.decode] of a byte string: the text, or the exception of a
    malformed shifted sequence. *)
Variable imap_utf7_decode : string -> Outcome string.

Definition create_imap_connection : M IMAP4 :=
  storage <- get_storage ;;
  emit (EvConnect (st_mail storage)) ;;;
  mail <- answer (IMAP4_SSL (st_mail storage)) ;;
  mail_login mail (st_login storage) (st_password storage) ;;;
  ret mail.

(** [imap_trace(func, storage)] is the wrapper; [a] stands for the
    wrapper's own arguments. *)
Definition imap_trace {A} (func : IMAP4 -> A -> M unit) : A -> M unit :=
  fun a =>
    c <- create_imap_connection ;;
    try_finally
      (func c a)
      (try_except_pass (mail_close c) ;;; mail_logout c).

(** The body of the loop of [select_email_folder]: one LIST line is
    decoded and split on the separator, its second field recorded under
    the line's number, and the line printed as [imap_utf7.decode] reads
    it. *)
Definition number_folder (enum_folders : gmap Z string) (nf : Z * option string)
  : M (gmap Z string) :=
  let '(num, f) := nf in
  b <- deref f ;;
  s <- decode b ;;
  let l := Py.str_split s Py.folder_sep in
  name <- index l 1 ;;
  shown <- answer (imap_utf7_decode b) ;;
  print (Py.str num +:+ ". " +:+ shown) ;;;
  ret (<[num := name]> enum_folders).

Definition select_email_folder (mail : IMAP4) (_ : unit) : M unit :=
  r <- mail_list mail ;;
  let '(result, folders) := r in
  enum_folders <-
    (if decide (result = "OK") then
       for_fold (enumerate folders 1) (∅ : gmap Z string) number_folder
     else ret ∅) ;;
  line <- input "Select number of folder:" ;;
  n <- int line ;;
  set_storage_folder (default "INBOX" (enum_folders !! n)).

(** The dict comprehension of [scan_email]: content type to payload, over
    the walk; a later part with the same type replaces an earlier one. *)
Definition email_message_of (m : Message) : gmap string Payload :=
  foldl (fun d part => <[get_content_type part := get_payload part]> d) ∅ (walk m).

(** The body of the loop of [scan_email]. *)
Definition forward_one (mail : IMAP4) (job : option Job) (id : string) : M unit :=
  r <- mail_fetch mail id ;;
  let '(result, data) := r in
  raw <- raw_message data ;;
  let email_message := email_message_of (message_from_bytes raw) in
  result <-
    match email_message !! "text/plain" with
    | Some p => ret p
    | None => raise KeyError
    end ;;
  chat <- context_of job ;;
  send_message chat result.

Definition scan_email (mail : IMAP4) (context : CallbackContext) : M unit :=
  let job := job context in
  storage <- get_storage ;;
  mail_select mail (st_folder storage) ;;;
  r <- mail_search mail ;;
  let '(result, data) := r in
  if decide (result = "OK") then
    d <- index data 0 ;;
    b <- deref d ;;
    let ids := Py.bytes_split b in
    for_each ids (forward_one mail job)
  else
    chat <- context_of job ;;
    send_message chat (Str result).

Definition remove_job_if_exists (name : string) (context : CallbackContext) : M bool :=
  current_jobs <- get_jobs_by_name name ;;
  match current_jobs with
  | [] => ret false
  | _ => for_each current_jobs schedule_removal ;;; ret true
  end.

Definition start (update : Update) (context : CallbackContext) : M unit :=
  reply_text update "Hi! Use /set <seconds> to set a timer".

Definition set_timer (job : Callable) (update : Update) (context : CallbackContext)
  : M unit :=
  let chat_id := chat_id update in
  try_except
    (a <- index (args context) 0 ;;
     interval <- int a ;;
     if (interval <? 0)%Z then
       reply_text update "Sorry we can not go back to future!"
     else
       job_removed <- remove_job_if_exists (Py.str chat_id) context ;;
       run_repeating job interval chat_id (Py.str chat_id) ;;;
       let text := "Timer successfully set!" in
       let text := if job_removed : bool then text +:+ " Old one was removed." else text in
       reply_text update text)
    (fun e => bool_decide (e = IndexError) || bool_decide (e = ValueError))
    (reply_text update "Usage: /set <seconds>").

Definition unset (update : Update) (context : CallbackContext) : M unit :=
  let chat_id := chat_id update in
  job_removed <- remove_job_if_exists (Py.str chat_id) context ;;
  let text := if job_removed : bool then "Timer successfully cancelled!"
              else "You have no active timer." in
  reply_text update text.

(** The part of [main] that runs the prompt when no folder was given. *)
Definition main_folder : M unit :=
  storage <- get_storage ;;
  match st_folder storage with
  | None => imap_trace select_email_folder tt
  | Some _ => ret tt
  end.

End Relay.

(** ** Vocabulary of the properties *)

(** *** Scanning *)

(** Message [id] is delivered by the server as a (header, body) pair whose
    parse has the [text/plain] payload [p]. *)
Definition has_plain (parse : string -> Message) (mail : IMAP4) (id : string)
    (p : Payload) : Prop :=
  exists status envelope raw rest,
    imap_fetch mail id = Ret (status, FPair envelope raw :: rest) /\
    email_message_of (parse raw) !! "text/plain" = Some p.

(** Message [id] is delivered, and its parse has no [text/plain] part. *)
Definition lacks_plain (parse : string -> Message) (mail : IMAP4) (id : string) : Prop :=
  exists status envelope raw rest,
    imap_fetch mail id = Ret (status, FPair envelope raw :: rest) /\
    email_message_of (parse raw) !! "text/plain" = None.

(** What a run over delivered messages leaves in the trace: for each
    identifier its fetch, then at once the send of its body. *)
Definition relayed (chat : Z) (ids : list string) (bodies : list Payload) : list Event :=
  concat (zip_with (fun id p => [EvFetch id; EvSend chat p]) ids bodies).

(** The trace of [scan_email] when the search has answered. *)
Definition searched (w : World) : list Event :=
  w_trace w ++ [EvSelect (st_folder (w_storage w)); EvSearch].

(** The parts of a message typed [text/plain], in walk order. *)
Definition plain_parts (m : Message) : list Message :=
  filter (fun part => get_content_type part = "text/plain") (walk m).


(** *** Timers *)

(** The jobs registered under a name: what [get_jobs_by_name] returns. *)
Definition named (name : string) (q : list Job) : list Job :=
  filter (fun j => job_name j = name) q.

(** The scheduler's own invariant: job ids are unique and come from the
    supply. *)
Definition wf_queue (w : World) : Prop :=
  NoDup (job_id <$> w_jobs w) /\
  Forall (fun j => (job_id j < w_next_id w)%nat) (w_jobs w).

Global Instance wf_queue_dec w : Decision (wf_queue w).
Proof. unfold wf_queue. apply _. Defined.

(** At most one job per name. *)
Definition at_most_one (q : list Job) : Prop :=
  forall name, (length (named name q) <= 1)%nat.

(** The name a chat's timer is registered under. *)
Definition key (update : Update) : string := Py.str (chat_id update).

(** The job a successful [/set] adds. *)
Definition installed (callback : Callable) (update : Update) (interval : Z) (w : World)
  : Job :=
  {| job_id := w_next_id w; job_callback := callback;
     job_interval := effective_interval interval;
     job_context := chat_id update; job_name := key update |}.

Definition set_reply (replaced : bool) : string :=
  if replaced then "Timer successfully set! Old one was removed."
  else "Timer successfully set!".

Definition unset_reply (removed : bool) : string :=
  if removed then "Timer successfully cancelled!" else "You have no active timer.".

(** The arguments [/set] turns down, with the reply it gives: a negative
    interval, no argument at all, or an argument [int] does not accept. *)
Inductive Rejected : list string -> string -> Prop :=
| rejected_negative a n rest :
    Py.int a = Some n -> n < 0 ->
    Rejected (a :: rest) "Sorry we can not go back to future!"
| rejected_absent :
    Rejected [] "Usage: /set <seconds>"
| rejected_not_a_number a rest :
    Py.int a = None ->
    Rejected (a :: rest) "Usage: /set <seconds>".

(** The commands that touch the job queue, as the dispatcher hands them to
    the handlers. *)
Inductive Command :=
| CmdSet (update : Update) (context : CallbackContext)
| CmdUnset (update : Update) (context : CallbackContext).

Definition handle (callback : Callable) (c : Command) : M unit :=
  match c with
  | CmdSet update context => set_timer callback update context
  | CmdUnset update context => unset update context
  end.


(** *** The folder prompt *)

(** A LIST line the prompt can number: a byte string that decodes, has the
    separator in it and is read by [imap_utf7.decode]; [name] is what
    follows the first separator, [shown] what is printed for the line. *)
Definition folder_line (imap_utf7_decode : string -> Outcome string)
    (f : option string) (line : string * string) : Prop :=
  exists b,
    f = Some b /\
    Py.decode b = Some b /\
    Py.str_split b Py.folder_sep !! 1%nat = Some line.1 /\
    imap_utf7_decode b = Ret line.2.

(** What the prompt prints for lines shown as [shown], numbered from
    [start]. *)
Definition listing (shown : list string) (start : Z) : list Event :=
  (fun nl : Z * string => EvPrint (Py.str nl.1 +:+ ". " +:+ nl.2))
    <$> enumerate shown start.

(** The folder a numeric selection picks among the listed [names]. *)
Definition chosen (names : list string) (n : Z) : string :=
  if decide (1 <= n <= Z.of_nat (length names))
  then default "INBOX" (names !! Z.to_nat (n - 1))
  else "INBOX".

(** *** What a run leaves alone *)

(** [w'] differs from [w] only by events added to the trace: settings, job
    queue, id supply and standard input are the same. *)
Definition only_traced (w w' : World) : Prop :=
  exists t, w' = with_trace (w_trace w ++ t) w.

(** A computation that, from any world and whatever its outcome, only adds
    to the trace. *)
Definition traced {A} (m : M A) : Prop :=
  forall w, only_traced w (m w).2.

(** The event a forwarding loop ends on when it stops before the
    identifiers [post]: the fetch of the first of them. *)
Definition stopped_at (post : list string) : list Event :=
  match post with
  | [] => []
  | bad :: _ => [EvFetch bad]
  end.

(** The callback [main] hands to [set_timer]: [imap_trace(scan_email,
    storage)]. *)
Definition scan_job (IMAP4_SSL : string -> Outcome IMAP4)
    (message_from_bytes : string -> Message) : CallbackContext -> M unit :=
  imap_trace IMAP4_SSL (scan_email message_from_bytes).

(** ** A small mailbox to run the script on *)

Module Demo.

Definition two_plain : Message :=
  Multipart "multipart/mixed"
    [Leaf "text/plain" "first";
     Leaf "text/html" "<p>between</p>";
     Leaf "text/plain" "second"].

(** A stand-in for the parser: three known bodies, anything else is the
    message with two plain parts. *)
Definition parse (raw : string) : Message :=
  if decide (raw = "raw 1") then Leaf "text/plain" "one"
  else if decide (raw = "raw 2") then Leaf "text/html" "<p>two</p>"
  else if decide (raw = "raw 3") then Leaf "text/plain" "three"
  else two_plain.

Definition decode (s : string) : Outcome string := Ret s.

(** Every command succeeds except the graceful close, which raises. *)
Definition mailbox (unseen search_status fetch_status : string) : IMAP4 :=
  {| imap_login := fun _ _ => Ret tt;
     imap_list :=
       Ret ("OK",
            [Some ("(\HasNoChildren)" +:+ Py.folder_sep +:+ "INBOX");
             Some ("(\HasNoChildren)" +:+ Py.folder_sep +:+ "Sent")]);
     imap_select := fun _ => Ret tt;
     imap_search := Ret (search_status, [Some unseen]);
     imap_fetch := fun id =>
       Ret (fetch_status, [FPair ("header " +:+ id) ("raw " +:+ id); FBytes ")"]);
     imap_close := Raise (LibraryError "imaplib.IMAP4.error");
     imap_logout := Ret tt |}.

Definition network (host : string) : Outcome IMAP4 :=
  if decide (host = "imap.example.org") then Ret (mailbox "1 2 3" "OK" "OK")
  else Raise (LibraryError "socket.gaierror").

Definition settings (folder : option string) : Storage :=
  {| st_token := "token"; st_chat := 77; st_mail := "imap.example.org";
     st_login := "user"; st_password := "secret"; st_folder := folder |}.

Definition world (folder : option string) (stdin : list string) : World :=
  {| w_storage := settings folder; w_jobs := []; w_next_id := 0;
     w_trace := []; w_stdin := stdin; w_clock := 63900000000 |}.

Definition upd : Update := {| chat_id := 77 |}.

Definition timer : Job :=
  {| job_id := 0; job_callback := ScanJob; job_interval := 60;
     job_context := 77; job_name := "77" |}.

(** The same mailbox with its own answers to login, LIST, SELECT and
    SEARCH. *)
Definition custom (login : Outcome unit) (listed : Outcome (string * list (option string)))
    (selected : Outcome unit) (found : Outcome (string * list (option string))) : IMAP4 :=
  {| imap_login := fun _ _ => login;
     imap_list := listed;
     imap_select := fun _ => selected;
     imap_search := found;
     imap_fetch := imap_fetch (mailbox "" "OK" "OK");
     imap_close := Ret tt;
     imap_logout := Ret tt |}.

(** The LIST lines of [mailbox]. *)
Definition listed : list (option string) :=
  [Some ("(\HasNoChildren)" +:+ Py.folder_sep +:+ "INBOX");
   Some ("(\HasNoChildren)" +:+ Py.folder_sep +:+ "Sent")].

(** Their folder names and what is printed for them. *)
Definition lines : list (string * string) :=
  [("INBOX", "(\HasNoChildren)" +:+ Py.folder_sep +:+ "INBOX");
   ("Sent", "(\HasNoChildren)" +:+ Py.folder_sep +:+ "Sent")].

(** A network with one server behind every name. *)
Definition net (m : IMAP4) (host : string) : Outcome IMAP4 := Ret m.

(** A world in which chat 77 already has its timer. *)
Definition armed : World :=
  {| w_storage := settings (Some "INBOX"); w_jobs := [timer]; w_next_id := 1;
     w_trace := []; w_stdin := []; w_clock := 63900000000 |}.

(** The context of a timer tick and of a chat command. *)
Definition tick : CallbackContext := {| args := []; job := Some timer |}.
Definition cmd (a : list string) : CallbackContext := {| args := a; job := None |}.

End Demo.

(** * Properties *)

(** ** The text helpers on examples *)

Example int_plain : Py.int "30" = Some 30.
Proof. reflexivity. Qed.
Example int_negative : Py.int "-1" = Some (-1).
Proof. reflexivity. Qed.
Example int_padded : Py.int " +1_000 " = Some 1000.
Proof. reflexivity. Qed.
Example int_word : Py.int "abc" = None.
Proof. reflexivity. Qed.
Example int_float : Py.int "1.5" = None.
Proof. reflexivity. Qed.
Example int_empty : Py.int "" = None.
Proof. reflexivity. Qed.
Example int_bad_underscore : Py.int "1__0" = None /\ Py.int "_1" = None /\ Py.int "1_" = None.
Proof. repeat split; reflexivity. Qed.
Example int_other_script : Py.int "٣٠" = Some 30 /\ Py.int "-٣" = Some (-3).
Proof. split; reflexivity. Qed.
Example int_separator_is_no_space : Py.int (String (ascii_of_nat 28) "2") = None.
Proof. reflexivity. Qed.
Example int_wide_space : Py.int (" 7" +:+ String (ascii_of_nat 194) (String (ascii_of_nat 160) "")) = Some 7.
Proof. reflexivity. Qed.
Example decode_strict :
  Py.decode "Entw&APw-rfe" = Some "Entw&APw-rfe" /\
  Py.decode (String (ascii_of_nat 228) "rger") = None.
Proof. split; reflexivity. Qed.
Example str_ints : Py.str 42 = "42" /\ Py.str (-7) = "-7" /\ Py.str 0 = "0".
Proof. repeat split; vm_compute; reflexivity. Qed.
Example split_ids : Py.bytes_split "1 2  33 " = ["1"; "2"; "33"].
Proof. reflexivity. Qed.
Example split_none : Py.bytes_split "" = [].
Proof. reflexivity. Qed.
Example split_folder :
  Py.str_split ("(\HasNoChildren)" +:+ Py.folder_sep +:+ "INBOX") Py.folder_sep
  = ["(\HasNoChildren)"; "INBOX"].
Proof. reflexivity. Qed.

(** [str.split(sep)] has fuel to spare: each step takes at least one
    character off the string, so any fuel above its length gives the same
    fields. *)
Lemma strip_prefix_length p s rest :
  Py.strip_prefix p s = Some rest ->
  String.length s = (String.length p + String.length rest)%nat.
Proof.
  revert s. induction p as [|a p IH]; intros s; simpl.
  - now intros [= ->].
  - destruct s as [|b s]; [discriminate|].
    destruct (decide (a = b)); [|discriminate].
    intros H. apply IH in H. simpl. lia.
Qed.

Lemma split_sep_go_fuel sep :
  sep <> "" ->
  forall fuel fuel' cur s,
    (String.length s < fuel)%nat ->
    (String.length s < fuel')%nat ->
    Py.split_sep_go sep cur s fuel = Py.split_sep_go sep cur s fuel'.
Proof.
  intros Hsep. induction fuel as [|fuel IH]; intros fuel' cur s Hf Hf'; [lia|].
  destruct fuel' as [|fuel']; [lia|]. simpl.
  destruct (Py.strip_prefix sep s) as [rest|] eqn:Hp.
  - apply strip_prefix_length in Hp.
    destruct sep as [|c sep]; [contradiction|]. simpl in Hp.
    f_equal. apply IH; lia.
  - destruct s as [|a s]; [reflexivity|]. simpl in Hf, Hf'. apply IH; lia.
Qed.

Lemma str_split_fuel s sep fuel :
  sep <> "" ->
  (String.length s < fuel)%nat ->
  Py.split_sep_go sep "" s fuel = Py.str_split s sep.
Proof. intros Hsep Hf. unfold Py.str_split. apply split_sep_go_fuel; [assumption|lia..]. Qed.

(** What [int] reads is text: a line [int] accepts has been decoded. *)
Lemma int_decodable s n : Py.int s = Some n -> Py.decode s = Some s.
Proof.
  unfold Py.int, Py.decode. now destruct (Py.code_points s).
Qed.

(** [str] of an integer tells integers apart: two chats never share a
    timer name. *)
Lemma key_inj u1 u2 : key u1 = key u2 -> chat_id u1 = chat_id u2.
Proof. unfold key, Py.str. apply (inj pretty). Qed.

(** ** Running the monad *)

Lemma bind_ret {A B} (m : M A) (k : A -> M B) w a w' :
  m w = (Ret a, w') -> bind m k w = k a w'.
Proof. intros H. unfold bind. now rewrite H. Qed.

Lemma bind_raise {A B} (m : M A) (k : A -> M B) w e w' :
  m w = (Raise e, w') -> bind m k w = (Raise e, w').
Proof. intros H. unfold bind. now rewrite H. Qed.

Lemma with_trace_same w : with_trace (w_trace w) w = w.
Proof. now destruct w. Qed.

Lemma with_jobs_same w : with_jobs (w_jobs w) (w_next_id w) w = w.
Proof. now destruct w. Qed.


(** ** Scanning the mailbox *)

Section Scan.

Variable message_from_bytes : string -> Message.
Variable mail : IMAP4.

Lemma forward_one_plain j id p w :
  has_plain message_from_bytes mail id p ->
  forward_one message_from_bytes mail (Some j) id w
  = (Ret tt, with_trace (w_trace w ++ [EvFetch id; EvSend (job_context j) p]) w).
Proof.
  intros (status & envelope & raw & rest & Hf & Hp).
  unfold forward_one, mail_fetch, bind, emit, answer. simpl.
  rewrite Hf. simpl. rewrite Hp. simpl.
  unfold send_message, emit. simpl.
  now rewrite <- app_assoc.
Qed.

Lemma forward_one_no_plain j id w :
  lacks_plain message_from_bytes mail id ->
  forward_one message_from_bytes mail j id w
  = (Raise KeyError, with_trace (w_trace w ++ [EvFetch id]) w).
Proof.
  intros (status & envelope & raw & rest & Hf & Hp).
  unfold forward_one, mail_fetch, bind, emit, answer. simpl.
  rewrite Hf. simpl. now rewrite Hp.
Qed.

Lemma for_each_relayed j ids bodies :
  Forall2 (has_plain message_from_bytes mail) ids bodies ->
  forall w,
    for_each ids (forward_one message_from_bytes mail (Some j)) w
    = (Ret tt, with_trace (w_trace w ++ relayed (job_context j) ids bodies) w).
Proof.
  induction 1 as [|id p ids bodies Hid _ IH]; intros w.
  - simpl. unfold ret, relayed. simpl. now rewrite app_nil_r, with_trace_same.
  - simpl. rewrite (bind_ret _ _ _ _ _ (forward_one_plain _ _ _ _ Hid)).
    rewrite IH. unfold relayed. simpl.
    now rewrite <- app_assoc.
Qed.

Lemma for_each_aborted j pre bodies bad post :
  Forall2 (has_plain message_from_bytes mail) pre bodies ->
  lacks_plain message_from_bytes mail bad ->
  forall w,
    for_each (pre ++ bad :: post) (forward_one message_from_bytes mail (Some j)) w
    = (Raise KeyError,
       with_trace (w_trace w ++ relayed (job_context j) pre bodies ++ [EvFetch bad]) w).
Proof.
  intros Hpre Hbad.
  induction Hpre as [|id p ids bodies Hid _ IH]; intros w.
  - simpl. rewrite (bind_raise _ _ _ _ _ (forward_one_no_plain _ _ _ Hbad)).
    reflexivity.
  - simpl. rewrite (bind_ret _ _ _ _ _ (forward_one_plain _ _ _ _ Hid)).
    rewrite IH. unfold relayed. simpl.
    now rewrite <- app_assoc.
Qed.

(** [scan_email] up to the answer of the search: the folder is selected,
    the search issued, and the rest runs on the answer. *)
Lemma scan_email_search context w r :
  imap_select mail (st_folder (w_storage w)) = Ret tt ->
  imap_search mail = Ret r ->
  scan_email message_from_bytes mail context w
  = (let '(result, data) := r in
     if decide (result = "OK") then
       d <- index data 0 ;;
       b <- deref d ;;
       for_each (Py.bytes_split b) (forward_one message_from_bytes mail (job context))
     else
       chat <- context_of (job context) ;;
       send_message chat (Str result)) (with_trace (searched w) w).
Proof.
  intros Hsel Hsearch.
  unfold scan_email, mail_select, mail_search, get_storage, bind at 1 2 3 4 5,
    emit, answer.
  simpl. rewrite Hsel. simpl. rewrite Hsearch. unfold searched.
  now rewrite <- app_assoc.
Qed.

(** C5. When the UNSEEN search answers with a status other than OK, the
    scan sends exactly one message to the chat of the job, whose text is
    that status, and does nothing else: no message is fetched, parsed or
    forwarded. *)
Theorem scan_email_search_not_ok context j w status data :
  job context = Some j ->
  imap_select mail (st_folder (w_storage w)) = Ret tt ->
  imap_search mail = Ret (status, data) ->
  status <> "OK" ->
  scan_email message_from_bytes mail context w
  = (Ret tt, with_trace (searched w ++ [EvSend (job_context j) (Str status)]) w).
Proof.
  intros Hjob Hsel Hsearch Hstatus.
  rewrite (scan_email_search _ _ _ Hsel Hsearch).
  destruct (decide (status = "OK")) as [|_]; [contradiction|].
  rewrite Hjob. reflexivity.
Qed.

(** C7. When the search succeeds and every unseen message has a
    [text/plain] part, the scan fetches the identifiers in the order the
    server listed them and sends each body as a message of its own right
    after its fetch, before the next message is fetched. *)
Theorem scan_email_relays_in_order context j w b rest bodies :
  job context = Some j ->
  imap_select mail (st_folder (w_storage w)) = Ret tt ->
  imap_search mail = Ret ("OK", Some b :: rest) ->
  Forall2 (has_plain message_from_bytes mail) (Py.bytes_split b) bodies ->
  scan_email message_from_bytes mail context w
  = (Ret tt,
     with_trace (searched w ++ relayed (job_context j) (Py.bytes_split b) bodies) w).
Proof.
  intros Hjob Hsel Hsearch Hall.
  rewrite (scan_email_search _ _ _ Hsel Hsearch).
  destruct (decide ("OK" = "OK")) as [_|Hne]; [|contradiction].
  rewrite Hjob. unfold index, deref. simpl.
  unfold bind at 1 2, ret at 1 2.
  now rewrite (for_each_relayed _ _ _ Hall).
Qed.

(** C3. When the unseen identifiers are [pre], then [bad], then [post],
    the messages of [pre] have a [text/plain] part and [bad] has none, the
    scan forwards the bodies of [pre], fetches [bad] and raises [KeyError]
    there: nothing is sent for [bad], and no message of [post] is fetched
    or forwarded. *)
Theorem scan_email_aborts_at_missing_plain context j w b rest pre bodies bad post :
  job context = Some j ->
  imap_select mail (st_folder (w_storage w)) = Ret tt ->
  imap_search mail = Ret ("OK", Some b :: rest) ->
  Py.bytes_split b = pre ++ bad :: post ->
  Forall2 (has_plain message_from_bytes mail) pre bodies ->
  lacks_plain message_from_bytes mail bad ->
  scan_email message_from_bytes mail context w
  = (Raise KeyError,
     with_trace (searched w ++ relayed (job_context j) pre bodies ++ [EvFetch bad]) w).
Proof.
  intros Hjob Hsel Hsearch Hids Hpre Hbad.
  rewrite (scan_email_search _ _ _ Hsel Hsearch).
  destruct (decide ("OK" = "OK")) as [_|Hne]; [|contradiction].
  rewrite Hjob. unfold index, deref. cbn [lookup list_lookup].
  unfold bind at 1 2, ret at 1 2. rewrite Hids.
  now rewrite (for_each_aborted _ _ _ _ _ Hpre Hbad).
Qed.

End Scan.

(** ** The content-type mapping *)

Lemma foldl_insert_lookup (l : list Message) (d : gmap string Payload) (k : string) :
  foldl (fun d part => <[get_content_type part := get_payload part]> d) d l !! k
  = match last (filter (fun part => get_content_type part = k) l) with
    | Some part => Some (get_payload part)
    | None => d !! k
    end.
Proof.
  revert d. induction l as [|x l IH]; intros d; [reflexivity|].
  simpl. rewrite IH, filter_cons.
  destruct (decide (get_content_type x = k)) as [Hx|Hx].
  - rewrite last_cons.
    destruct (last (filter _ l)); [reflexivity|].
    rewrite <- Hx. apply lookup_insert_eq.
  - destruct (last (filter _ l)); [reflexivity|].
    now apply lookup_insert_ne.
Qed.

(** The entry of a content type is the payload of the last part of that
    type in the walk. *)
Lemma email_message_of_lookup (m : Message) (k : string) :
  email_message_of m !! k
  = get_payload <$> last (filter (fun part => get_content_type part = k) (walk m)).
Proof.
  unfold email_message_of. rewrite foldl_insert_lookup.
  destruct (last _); [reflexivity|]. apply lookup_empty.
Qed.

Section ScanParts.

Variable message_from_bytes : string -> Message.

(** C9. For a fetched message with more than one part typed [text/plain],
    one turn of the loop sends exactly one message, and its text is the
    payload of the last such part in walk order. *)
Theorem forward_one_last_plain_part mail j id status envelope raw rest w :
  imap_fetch mail id = Ret (status, FPair envelope raw :: rest) ->
  (1 < length (plain_parts (message_from_bytes raw)))%nat ->
  exists part,
    last (plain_parts (message_from_bytes raw)) = Some part /\
    forward_one message_from_bytes mail (Some j) id w
    = (Ret tt,
       with_trace (w_trace w ++ [EvFetch id; EvSend (job_context j) (get_payload part)]) w).
Proof.
  intros Hfetch Hmany.
  destruct (last (plain_parts (message_from_bytes raw))) as [part|] eqn:Hlast.
  - exists part. split; [reflexivity|].
    apply forward_one_plain. exists status, envelope, raw, rest.
    split; [assumption|].
    rewrite email_message_of_lookup. fold (plain_parts (message_from_bytes raw)).
    now rewrite Hlast.
  - apply last_None in Hlast. rewrite Hlast in Hmany. simpl in Hmany. lia.
Qed.




End ScanParts.

(** A mailbox that answers every FETCH with NO and still delivers data is
    forwarded in full, with no message about the status. *)
Example scan_email_fetch_status_no :
  scan_email Demo.parse (Demo.mailbox "1 3" "OK" "NO") Demo.tick
    (Demo.world (Some "INBOX") [])
  = (Ret tt,
     with_trace
       [EvSelect (Some "INBOX"); EvSearch;
        EvFetch "1"; EvSend 77 (Str "one");
        EvFetch "3"; EvSend 77 (Str "three")]
       (Demo.world (Some "INBOX") [])).
Proof. vm_compute. reflexivity. Qed.

(** ** The connection wrapper *)

Section Wrapper.

Variable IMAP4_SSL : string -> Outcome IMAP4.

(** C2. Once the connection is open, whatever the wrapped function does
    (return or raise, outcome [r]), and whatever [close] answers, the
    wrapper then calls [close] once and [logout] once, in that order, and
    nothing else.  An exception of [close] is dropped; the wrapper ends
    the way the wrapped function did unless [logout] itself raises. *)
Theorem imap_trace_close_then_logout {A} (func : IMAP4 -> A -> M unit) (a : A)
    w c w0 r w1 :
  create_imap_connection IMAP4_SSL w = (Ret c, w0) ->
  func c a w0 = (r, w1) ->
  imap_trace IMAP4_SSL func a w
  = (match imap_logout c with Ret _ => r | Raise e => Raise e end,
     with_trace (w_trace w1 ++ [EvClose; EvLogout]) w1).
Proof.
  intros Hopen Hfunc.
  unfold imap_trace. rewrite (bind_ret _ _ _ _ _ Hopen).
  unfold try_finally. rewrite Hfunc.
  unfold try_except_pass, mail_close, mail_logout, bind, emit, answer. simpl.
  rewrite <- app_assoc. simpl.
  destruct (imap_close c) as [[]|e1], (imap_logout c) as [[]|e2]; reflexivity.
Qed.

(** When the connection cannot be opened there is nothing to release:
    the wrapped function does not run and neither [close] nor [logout] is
    called. *)
Lemma imap_trace_open_failed {A} (func : IMAP4 -> A -> M unit) (a : A) w e w0 :
  create_imap_connection IMAP4_SSL w = (Raise e, w0) ->
  imap_trace IMAP4_SSL func a w = (Raise e, w0).
Proof. intros Hopen. unfold imap_trace. now rewrite (bind_raise _ _ _ _ _ Hopen). Qed.

End Wrapper.

(** ** The job queue *)

Lemma filter_agree {A} (P Q : A -> Prop) `{!forall x, Decision (P x)}
    `{!forall x, Decision (Q x)} (l : list A) :
  (forall x, x ∈ l -> P x <-> Q x) -> filter P l = filter Q l.
Proof.
  induction l as [|x l IH]; intros Hag; [reflexivity|].
  rewrite !filter_cons.
  rewrite IH by (intros y Hy; apply Hag; now right).
  destruct (decide (P x)) as [HP|HP], (decide (Q x)) as [HQ|HQ];
    try reflexivity; exfalso; [apply HQ | apply HP];
    apply (Hag x); try (now left); assumption.
Qed.

Lemma filter_all {A} (P : A -> Prop) `{!forall x, Decision (P x)} (l : list A) :
  (forall x, x ∈ l -> P x) -> filter P l = l.
Proof.
  induction l as [|x l IH]; intros Hall; [reflexivity|].
  rewrite filter_cons_True by (apply Hall; now left).
  f_equal. apply IH. intros y Hy. apply Hall. now right.
Qed.

Lemma NoDup_fmap_eq {A B} (f : A -> B) (l : list A) x y :
  NoDup (f <$> l) -> x ∈ l -> y ∈ l -> f x = f y -> x = y.
Proof.
  induction l as [|z l IH]; intros Hnd Hx Hy Hf.
  - now apply elem_of_nil in Hx.
  - rewrite fmap_cons in Hnd. apply NoDup_cons in Hnd as [Hz Hnd].
    apply elem_of_cons in Hx as [->|Hx], Hy as [->|Hy]; auto.
    + exfalso. apply Hz. rewrite Hf. now apply list_elem_of_fmap_2.
    + exfalso. apply Hz. rewrite <- Hf. now apply list_elem_of_fmap_2.
Qed.

Lemma NoDup_fmap_filter {A B} (f : A -> B) (P : A -> Prop)
    `{!forall x, Decision (P x)} (l : list A) :
  NoDup (f <$> l) -> NoDup (f <$> filter P l).
Proof.
  intros Hnd. apply NoDup_fmap_2_strong.
  - intros x y Hx Hy Hxy.
    apply list_elem_of_filter in Hx as [_ Hx], Hy as [_ Hy].
    eapply NoDup_fmap_eq; eassumption.
  - apply NoDup_filter. eapply NoDup_fmap_1; eassumption.
Qed.

(** The loop of [remove_job_if_exists]: every job of the snapshot is still
    scheduled when its turn comes, so no removal raises, and what is left
    are the jobs whose id is not in the snapshot. *)
Lemma for_each_schedule_removal (l : list Job) :
  NoDup (job_id <$> l) ->
  forall w,
    (forall j, j ∈ l -> j ∈ w_jobs w) ->
    for_each l schedule_removal w
    = (Ret tt,
       with_jobs (filter (fun j => job_id j ∉ job_id <$> l) (w_jobs w)) (w_next_id w) w).
Proof.
  induction l as [|j l IH]; intros Hnd w Hin.
  - simpl. unfold ret. f_equal.
    rewrite filter_all by (intros x _; apply not_elem_of_nil).
    symmetry. apply with_jobs_same.
  - rewrite fmap_cons in Hnd. apply NoDup_cons in Hnd as [Hj Hnd].
    simpl. unfold bind, schedule_removal at 1.
    rewrite bool_decide_eq_true_2
      by (apply list_elem_of_fmap_2, Hin; now left).
    rewrite IH; [|assumption|].
    + unfold with_jobs. simpl. do 2 f_equal.
      rewrite list_filter_filter. apply filter_agree.
      intros x _. rewrite not_elem_of_cons.
      split; intros [? ?]; split; assumption.
    + intros j' Hj'. simpl. apply list_elem_of_filter. split.
      * intros Heq. apply Hj. rewrite <- Heq. now apply list_elem_of_fmap_2.
      * apply Hin. now right.
Qed.

(** [remove_job_if_exists] takes out exactly the jobs under the name and
    returns whether there was one. *)
Lemma remove_job_if_exists_run name context w :
  wf_queue w ->
  remove_job_if_exists name context w
  = (Ret (bool_decide (named name (w_jobs w) <> [])),
     with_jobs (filter (fun j => job_name j <> name) (w_jobs w)) (w_next_id w) w).
Proof.
  intros [Hnd _].
  unfold remove_job_if_exists, get_jobs_by_name, bind at 1.
  fold (named name (w_jobs w)).
  destruct (named name (w_jobs w)) as [|j0 l0] eqn:Hnamed.
  - unfold ret. rewrite bool_decide_eq_false_2 by (intros H; now apply H).
    f_equal. rewrite filter_all; [symmetry; apply with_jobs_same|].
    intros x Hx Hname.
    eapply (filter_nil_not_elem_of _ _ x Hnamed); eassumption.
  - rewrite bool_decide_eq_true_2 by discriminate.
    rewrite <- Hnamed.
    unfold bind.
    rewrite for_each_schedule_removal.
    + unfold ret. f_equal. f_equal.
      apply filter_agree. intros x Hx. split.
      * intros Hid Hname. apply Hid, list_elem_of_fmap_2.
        apply list_elem_of_filter. now split.
      * intros Hname Hid. apply list_elem_of_fmap in Hid as (y & Hxy & Hy).
        apply list_elem_of_filter in Hy as [Hyname Hy].
        apply Hname. rewrite <- Hyname. f_equal.
        eapply NoDup_fmap_eq; eassumption.
    + now apply NoDup_fmap_filter.
    + intros j Hj. apply list_elem_of_filter in Hj. tauto.
Qed.

Lemma named_app name q1 q2 : named name (q1 ++ q2) = named name q1 ++ named name q2.
Proof. apply filter_app. Qed.

Lemma named_others_same name q : named name (filter (fun j => job_name j <> name) q) = [].
Proof.
  unfold named. rewrite list_filter_filter.
  induction q as [|j q IH]; [reflexivity|].
  rewrite filter_cons_False by tauto. exact IH.
Qed.

Lemma named_others_other name k q :
  k <> name -> named k (filter (fun j => job_name j <> name) q) = named k q.
Proof.
  intros Hk. unfold named. rewrite list_filter_filter.
  apply filter_agree. intros j _. split; [tauto|].
  intros Hj. split; [assumption|congruence].
Qed.

Lemma wf_queue_filter (P : Job -> Prop) `{!forall j, Decision (P j)} w :
  wf_queue w -> wf_queue (with_jobs (filter P (w_jobs w)) (w_next_id w) w).
Proof.
  intros [Hnd Hlt]. split; simpl.
  - now apply NoDup_fmap_filter.
  - rewrite Forall_forall in Hlt |- *. intros j Hj.
    apply list_elem_of_filter in Hj as [_ Hj]. now apply Hlt.
Qed.

Lemma at_most_one_filter (P : Job -> Prop) `{!forall j, Decision (P j)} q :
  at_most_one q -> at_most_one (filter P q).
Proof.
  intros Hone k.
  assert (named k (filter P q) = filter P (named k q)) as ->.
  { unfold named. rewrite !list_filter_filter. apply filter_agree. tauto. }
  etransitivity; [apply length_filter|]. apply Hone.
Qed.

(** ** The chat commands *)

Section Timers.

Variable callback : Callable.
Variable update : Update.

(** What an accepted [/set] does up to the call of the scheduler: the jobs
    of the chat are removed, then [run_repeating] decides. *)
Lemma set_timer_accepted context w a n :
  args context !! 0%nat = Some a ->
  Py.int a = Some n ->
  0 <= n ->
  wf_queue w ->
  schedulable (w_clock w) n = true ->
  set_timer callback update context w
  = (Ret tt,
     with_trace
       (w_trace w ++
        [EvReply (chat_id update)
           (set_reply (bool_decide (named (key update) (w_jobs w) <> [])))])
       (with_jobs
          (filter (fun j => job_name j <> key update) (w_jobs w)
           ++ [installed callback update n w])
          (S (w_next_id w)) w)).
Proof.
  intros Ha Hint Hn Hwf Hsched.
  unfold set_timer, try_except, index, int. rewrite Ha.
  unfold bind at 1. unfold ret at 1. rewrite Hint.
  unfold bind at 1. unfold ret at 1.
  destruct (Z.ltb_spec n 0) as [Hneg|_]; [lia|].
  unfold bind at 1. fold (key update).
  rewrite remove_job_if_exists_run by assumption.
  unfold bind, run_repeating, reply_text, emit. simpl. rewrite Hsched. simpl.
  destruct (bool_decide (named (key update) (w_jobs w) <> [])); reflexivity.
Qed.


Lemma unset_run context w :
  wf_queue w ->
  unset update context w
  = (Ret tt,
     with_trace
       (w_trace w ++
        [EvReply (chat_id update)
           (unset_reply (bool_decide (named (key update) (w_jobs w) <> [])))])
       (with_jobs (filter (fun j => job_name j <> key update) (w_jobs w))
          (w_next_id w) w)).
Proof.
  intros Hwf. unfold unset, bind. fold (key update).
  rewrite remove_job_if_exists_run by assumption. reflexivity.
Qed.

Lemma wf_queue_installed n w :
  wf_queue w ->
  wf_queue
    (with_jobs
       (filter (fun j => job_name j <> key update) (w_jobs w)
        ++ [installed callback update n w])
       (S (w_next_id w)) w).
Proof.
  intros Hwf.
  destruct (wf_queue_filter (fun j => job_name j <> key update) w Hwf) as [Hnd Hlt].
  simpl in Hnd, Hlt. split; simpl.
  - rewrite fmap_app. apply NoDup_app. split; [assumption|]. split.
    + intros i Hi Hi'. apply list_elem_of_fmap in Hi as (j & -> & Hj).
      rewrite Forall_forall in Hlt. specialize (Hlt j Hj).
      simpl in Hi'. apply list_elem_of_singleton in Hi'. lia.
    + apply NoDup_singleton.
  - apply Forall_app. split.
    + eapply Forall_impl; [exact Hlt|]. simpl. intros; lia.
    + apply Forall_singleton. simpl. lia.
Qed.

Lemma named_installed n w :
  named (key update)
    (filter (fun j => job_name j <> key update) (w_jobs w)
     ++ [installed callback update n w])
  = [installed callback update n w].
Proof.
  rewrite named_app, named_others_same. unfold named.
  now rewrite filter_cons_True by reflexivity.
Qed.

Lemma named_installed_other n w k :
  k <> key update ->
  named k
    (filter (fun j => job_name j <> key update) (w_jobs w)
     ++ [installed callback update n w])
  = named k (w_jobs w).
Proof.
  intros Hk. rewrite named_app, named_others_other by assumption.
  unfold named at 2. rewrite filter_cons_False by (simpl; congruence).
  apply app_nil_r.
Qed.

Lemma at_most_one_installed n w :
  at_most_one (w_jobs w) ->
  at_most_one
    (filter (fun j => job_name j <> key update) (w_jobs w)
     ++ [installed callback update n w]).
Proof.
  intros Hone k. destruct (decide (k = key update)) as [->|Hk].
  - now rewrite named_installed.
  - rewrite named_installed_other by assumption. apply Hone.
Qed.

(** The three ways [/set] turns its argument down.  In each the handler
    returns before it reaches the job queue. *)
Lemma set_timer_negative context w a n :
  args context !! 0%nat = Some a ->
  Py.int a = Some n ->
  n < 0 ->
  set_timer callback update context w
  = (Ret tt,
     with_trace
       (w_trace w ++ [EvReply (chat_id update) "Sorry we can not go back to future!"]) w).
Proof.
  intros Ha Hint Hn. unfold set_timer, try_except, index, int. rewrite Ha.
  unfold bind at 1. unfold ret at 1. rewrite Hint.
  unfold bind at 1. unfold ret at 1.
  destruct (Z.ltb_spec n 0) as [_|Hpos]; [reflexivity|lia].
Qed.

Lemma set_timer_no_argument context w :
  args context !! 0%nat = None ->
  set_timer callback update context w
  = (Ret tt, with_trace (w_trace w ++ [EvReply (chat_id update) "Usage: /set <seconds>"]) w).
Proof.
  intros Ha. unfold set_timer, try_except, index. rewrite Ha. reflexivity.
Qed.

Lemma set_timer_not_a_number context w a :
  args context !! 0%nat = Some a ->
  Py.int a = None ->
  set_timer callback update context w
  = (Ret tt, with_trace (w_trace w ++ [EvReply (chat_id update) "Usage: /set <seconds>"]) w).
Proof.
  intros Ha Hint. unfold set_timer, try_except, index, int. rewrite Ha.
  unfold bind at 1. unfold ret at 1. now rewrite Hint.
Qed.

(** C1, as amended.  A [/set] with a non-negative interval [n] that the
    scheduler takes (the first run, [n] seconds from now, is within its
    calendar), on a queue the scheduler keeps well formed, succeeds and
    leaves exactly one job under the chat's key, the new one, which runs
    every [n] seconds (every second for [n = 0]).  Every job that was
    under the key before is gone, and was already gone when the new one
    was added (the state after [remove_job_if_exists] has none); jobs
    under other keys are untouched.  So if each key had at most one job
    before, each key has at most one job after, and in between. *)
Theorem set_timer_installs_exactly_one context w a n :
  args context !! 0%nat = Some a ->
  Py.int a = Some n ->
  0 <= n ->
  wf_queue w ->
  schedulable (w_clock w) n = true ->
  let cleared := (remove_job_if_exists (key update) context w).2 in
  let w' := (set_timer callback update context w).2 in
  (set_timer callback update context w).1 = Ret tt /\
  named (key update) (w_jobs cleared) = [] /\
  named (key update) (w_jobs w') = [installed callback update n w] /\
  (forall j, j ∈ named (key update) (w_jobs w) -> j ∉ w_jobs w') /\
  (forall k, k <> key update -> named k (w_jobs w') = named k (w_jobs w)) /\
  (at_most_one (w_jobs w) -> at_most_one (w_jobs cleared) /\ at_most_one (w_jobs w')) /\
  wf_queue w'.
Proof.
  intros Ha Hint Hn Hwf Hsched. cbv zeta.
  rewrite (set_timer_accepted _ _ _ _ Ha Hint Hn Hwf Hsched).
  rewrite (remove_job_if_exists_run _ _ _ Hwf). simpl.
  split; [reflexivity|]. split; [apply named_others_same|].
  split; [apply named_installed|]. split; [|split; [|split]].
  - intros j Hj Hin. apply list_elem_of_filter in Hj as [Hname Hj].
    apply elem_of_app in Hin as [Hin|Hin].
    + apply list_elem_of_filter in Hin as [Hne _]. contradiction.
    + apply list_elem_of_singleton in Hin.
      destruct Hwf as [_ Hlt]. rewrite Forall_forall in Hlt.
      specialize (Hlt j Hj). rewrite Hin in Hlt. simpl in Hlt. lia.
  - intros k Hk. now apply named_installed_other.
  - intros Hone. split; [now apply at_most_one_filter|now apply at_most_one_installed].
  - now apply wf_queue_installed.
Qed.

(** C4. A [/set] whose argument is negative is answered with the refusal,
    one whose argument is missing or not a number with the usage line; in
    each case the reply is all that happens: the job queue and the rest
    of the state are exactly as before. *)
Theorem set_timer_rejected context w reply :
  Rejected (args context) reply ->
  set_timer callback update context w
  = (Ret tt, with_trace (w_trace w ++ [EvReply (chat_id update) reply]) w).
Proof.
  intros Hrej.
  inversion Hrej as [a n rest Hint Hn Hargs | Hargs | a rest Hint Hargs].
  - eapply set_timer_negative; [|eassumption..]. now rewrite <- Hargs.
  - apply set_timer_no_argument. now rewrite <- Hargs.
  - eapply set_timer_not_a_number; [|eassumption]. now rewrite <- Hargs.
Qed.

(** C6, as amended.  After a [/set] with a non-negative interval that the
    scheduler takes, [/unset] leaves no job under the chat's key and
    replies that the timer was cancelled; a second [/unset] changes
    nothing in the queue and replies that there is no active timer. *)
Theorem set_then_unset_twice context c1 c2 w a n :
  args context !! 0%nat = Some a ->
  Py.int a = Some n ->
  0 <= n ->
  wf_queue w ->
  schedulable (w_clock w) n = true ->
  let w1 := (set_timer callback update context w).2 in
  let w2 := (unset update c1 w1).2 in
  let w3 := (unset update c2 w2).2 in
  (unset update c1 w1).1 = Ret tt /\
  named (key update) (w_jobs w2) = [] /\
  w_trace w2 = w_trace w1 ++ [EvReply (chat_id update) "Timer successfully cancelled!"] /\
  (unset update c2 w2).1 = Ret tt /\
  w_jobs w3 = w_jobs w2 /\
  w_trace w3 = w_trace w2 ++ [EvReply (chat_id update) "You have no active timer."].
Proof.
  intros Ha Hint Hn Hwf Hsched. cbv zeta.
  rewrite (set_timer_accepted _ _ _ _ Ha Hint Hn Hwf Hsched). cbn [snd].
  set (w1 := with_trace _ (with_jobs _ _ w)).
  assert (Hwf1 : wf_queue w1) by (now apply wf_queue_installed).
  assert (Hone : named (key update) (w_jobs w1) = [installed callback update n w])
    by apply named_installed.
  rewrite (unset_run c1 w1 Hwf1). cbn [fst snd].
  set (w2 := with_trace _ (with_jobs _ _ w1)).
  assert (Hwf2 : wf_queue w2)
    by apply (wf_queue_filter (fun j => job_name j <> key update) w1 Hwf1).
  assert (Hnone : named (key update) (w_jobs w2) = [])
    by apply named_others_same.
  rewrite (unset_run c2 w2 Hwf2). cbn [fst snd].
  assert (Hb1 : bool_decide (named (key update) (w_jobs w1) <> []) = true)
    by (rewrite Hone; now apply bool_decide_eq_true_2).
  assert (Hb2 : bool_decide (named (key update) (w_jobs w2) <> []) = false)
    by (rewrite Hnone; apply bool_decide_eq_false_2; intros H; now apply H).
  rewrite Hb2.
  split; [reflexivity|]. split; [exact Hnone|].
  split; [subst w2; cbn [w_trace with_trace]; now rewrite Hb1|].
  split; [reflexivity|]. split; [|reflexivity].
  cbn [w_jobs with_trace with_jobs].
  apply filter_all. intros j Hj Hname.
  eapply (filter_nil_not_elem_of _ _ j Hnone); eassumption.
Qed.

End Timers.

(** *** The queue over a whole session *)






Example two_chats_two_timers :
  let cs := [CmdSet {| chat_id := 77 |} (Demo.cmd ["30"]);
             CmdSet {| chat_id := 78 |} (Demo.cmd ["5"]);
             CmdSet {| chat_id := 77 |} (Demo.cmd ["10"]);
             CmdSet {| chat_id := 78 |} (Demo.cmd ["-5"])] in
  (fun j => (job_name j, job_interval j))
    <$> w_jobs (for_each cs (handle ScanJob) (Demo.world None [])).2
  = [("78", 5); ("77", 10)].
Proof. vm_compute. reflexivity. Qed.

(** ** The folder prompt *)

Section Prompt.

Variable imap_utf7_decode : string -> Outcome string.

(** The numbering loop only prints. *)
Lemma number_folder_frame d nf w r w' :
  number_folder imap_utf7_decode d nf w = (r, w') ->
  w' = with_trace (w_trace w') w.
Proof.
  destruct nf as [num [b|]];
    unfold number_folder, deref, decode, index, bind, print, emit, ret, raise, answer.
  - destruct (Py.decode b) as [s|].
    + destruct (Py.str_split s Py.folder_sep !! 1%nat).
      * destruct (imap_utf7_decode b); intros [= <- <-];
          [reflexivity|now rewrite with_trace_same].
      * intros [= <- <-]. now rewrite with_trace_same.
    + intros [= <- <-]. now rewrite with_trace_same.
  - intros [= <- <-]. now rewrite with_trace_same.
Qed.

Lemma for_fold_number_folder_frame l :
  forall d w r w',
    for_fold l d (number_folder imap_utf7_decode) w = (r, w') ->
    w' = with_trace (w_trace w') w.
Proof.
  induction l as [|nf l IH]; intros d w r w'; simpl.
  - intros [= <- <-]. now rewrite with_trace_same.
  - unfold bind.
    destruct (number_folder imap_utf7_decode d nf w) as [[d1|e] w1] eqn:H1.
    + intros H2. apply IH in H2. apply number_folder_frame in H1.
      rewrite H2, H1. reflexivity.
    + intros [= <- <-]. now apply number_folder_frame in H1.
Qed.

(** A selection that [int] does not accept is not defaulted: the prompt
    raises and [storage] keeps the folder it had. *)
Lemma select_email_folder_not_a_number mail w line rest :
  w_stdin w = line :: rest ->
  Py.int line = None ->
  exists e w',
    select_email_folder imap_utf7_decode mail tt w = (Raise e, w') /\
    w_storage w' = w_storage w.
Proof.
  intros Hin Hint.
  unfold select_email_folder, mail_list, bind at 1 2, emit, answer. simpl.
  destruct (imap_list mail) as [[result folders]|e]; [|now eexists _, _].
  unfold bind at 1.
  set (w0 := with_trace _ w).
  destruct ((if decide (result = "OK")
             then for_fold (enumerate folders 1) ∅ (number_folder imap_utf7_decode)
             else ret ∅) w0) as [[d|e] w1] eqn:Hloop.
  - assert (Hframe : w1 = with_trace (w_trace w1) w0).
    { destruct (decide (result = "OK")).
      - now apply for_fold_number_folder_frame in Hloop.
      - injection Hloop as _ <-. now rewrite with_trace_same. }
    rewrite Hframe. unfold input, bind, emit, int. simpl. rewrite Hin.
    unfold Py.decode. destruct (Py.code_points line) eqn:Hcp; [|now eexists _, _].
    rewrite Hint. now eexists _, _.
  - exists e, w1. split; [reflexivity|].
    destruct (decide (result = "OK")); [|discriminate].
    apply for_fold_number_folder_frame in Hloop. now rewrite Hloop.
Qed.

End Prompt.

Section PromptNumbers.

Variable imap_utf7_decode : string -> Outcome string.

Lemma number_folder_line d num b name shown w :
  Py.decode b = Some b ->
  Py.str_split b Py.folder_sep !! 1%nat = Some name ->
  imap_utf7_decode b = Ret shown ->
  number_folder imap_utf7_decode d (num, Some b) w
  = (Ret (<[num := name]> d),
     with_trace (w_trace w ++ [EvPrint (Py.str num +:+ ". " +:+ shown)]) w).
Proof.
  intros Hdec Hname Hshown. unfold number_folder, deref, decode, index.
  unfold bind at 1. unfold ret at 1. rewrite Hdec.
  unfold bind at 1. unfold ret at 1. rewrite Hname.
  unfold bind at 1. unfold ret at 1.
  unfold bind at 1, answer. now rewrite Hshown.
Qed.

Lemma for_fold_numbering folders lines :
  Forall2 (folder_line imap_utf7_decode) folders lines ->
  forall start (d : gmap Z string) w,
  exists d',
    for_fold (enumerate folders start) d (number_folder imap_utf7_decode) w
    = (Ret d', with_trace (w_trace w ++ listing lines.*2 start) w) /\
    forall n,
      d' !! n
      = if decide (start <= n < start + Z.of_nat (length lines))
        then lines.*1 !! Z.to_nat (n - start)
        else d !! n.
Proof.
  induction 1 as [|f [name shown] folders lines (b & -> & Hdec & Hname & Hshown) _ IH];
    intros start d w.
  - exists d. simpl. unfold ret, listing. simpl.
    rewrite app_nil_r, with_trace_same. split; [reflexivity|].
    intros n. destruct (decide _) as [Hn|_]; [lia|reflexivity].
  - cbn [enumerate for_fold]. simpl in Hname, Hshown.
    destruct (IH (start + 1) (<[start := name]> d)
                (with_trace (w_trace w ++ [EvPrint (Py.str start +:+ ". " +:+ shown)]) w))
      as (d' & Hrun & Hlook).
    exists d'. split.
    + rewrite (bind_ret _ _ _ _ _ (number_folder_line _ _ _ _ _ _ Hdec Hname Hshown)).
      rewrite Hrun. unfold listing. simpl.
      now rewrite <- app_assoc.
    + intros n. rewrite Hlook. simpl length.
      destruct (decide (start + 1 <= n < start + 1 + Z.of_nat (length lines)))
        as [Hin|Hout];
        destruct (decide (start <= n < start + Z.of_nat (S (length lines))))
        as [Hin'|Hout']; try lia.
      * replace (Z.to_nat (n - start)) with (S (Z.to_nat (n - (start + 1)))) by lia.
        reflexivity.
      * assert (n = start) as -> by lia.
        rewrite Z.sub_diag. simpl. apply lookup_insert_eq.
      * apply lookup_insert_ne. lia.
Qed.

(** With a listing that succeeds and a selection [int] accepts, the prompt
    prints the lines numbered from 1 and stores the folder of that
    number, or INBOX when the number is not in the list. *)
Lemma select_email_folder_numeric mail w folders lines line rest n :
  imap_list mail = Ret ("OK", folders) ->
  Forall2 (folder_line imap_utf7_decode) folders lines ->
  w_stdin w = line :: rest ->
  Py.int line = Some n ->
  exists w',
    select_email_folder imap_utf7_decode mail tt w = (Ret tt, w') /\
    w_trace w'
    = w_trace w ++ [EvList] ++ listing lines.*2 1
      ++ [EvPrompt "Select number of folder:"] /\
    st_folder (w_storage w') = Some (chosen lines.*1 n).
Proof.
  intros Hlist Hlines Hin Hint. pose proof (int_decodable _ _ Hint) as Hdec.
  unfold select_email_folder, mail_list, bind at 1 2, emit, answer. simpl.
  rewrite Hlist. destruct (decide ("OK" = "OK")) as [_|Hne]; [|contradiction].
  destruct (for_fold_numbering folders lines Hlines 1 ∅
              (with_trace (w_trace w ++ [EvList]) w)) as (d & Hrun & Hlook).
  rewrite (bind_ret _ _ _ _ _ Hrun).
  unfold input, bind, emit, int, set_storage_folder. simpl.
  rewrite Hin, Hdec, Hint. unfold ret. eexists. split; [reflexivity|]. simpl. split.
  - now rewrite <- !app_assoc.
  - f_equal. rewrite Hlook. unfold chosen. rewrite !length_fmap.
    destruct (decide (1 <= n < 1 + Z.of_nat (length lines))) as [Hn|Hn];
      destruct (decide (1 <= n <= Z.of_nat (length lines))) as [Hn'|Hn']; try lia.
    + reflexivity.
    + now rewrite lookup_empty.
Qed.

Lemma chosen_out_of_range names n :
  n < 1 \/ Z.of_nat (length names) < n -> chosen names n = "INBOX".
Proof. intros Hn. unfold chosen. destruct (decide _); [lia|reflexivity]. Qed.

End PromptNumbers.

(** C8, as the code behaves.  With no folder on the command line the
    prompt lists the folders numbered from 1 and asks for a number.  At the
    selection abc, which is not a number, [int] raises [ValueError]: no
    folder is stored, INBOX or other, and the error leaves [main] after the
    connection has been released. *)
Theorem select_folder_not_a_number_raises :
  let run := main_folder Demo.network Demo.decode (Demo.world None ["abc"]) in
  run.1 = Raise ValueError /\
  st_folder (w_storage run.2) = None /\
  w_trace run.2
  = [EvConnect "imap.example.org"; EvLogin "user" "secret"; EvList;
     EvPrint ("1. (\HasNoChildren)" +:+ Py.folder_sep +:+ "INBOX");
     EvPrint ("2. (\HasNoChildren)" +:+ Py.folder_sep +:+ "Sent");
     EvPrompt "Select number of folder:"; EvClose; EvLogout].
Proof. vm_compute. repeat split. Qed.

(** A number that is not in the list does fall back to INBOX, and a number
    in the list picks its folder. *)
Example select_folder_out_of_range :
  st_folder (w_storage (main_folder Demo.network Demo.decode (Demo.world None ["7"])).2)
  = Some "INBOX".
Proof. vm_compute. reflexivity. Qed.

Example select_folder_second :
  st_folder (w_storage (main_folder Demo.network Demo.decode (Demo.world None ["2"])).2)
  = Some "Sent".
Proof. vm_compute. reflexivity. Qed.

(** ** The claims on the small mailbox *)

Lemma demo_armed_wf : wf_queue Demo.armed.
Proof.
  split.
  - apply NoDup_singleton.
  - apply Forall_singleton. simpl. lia.
Defined.

Lemma demo_has_plain unseen s1 s2 id raw p :
  raw = "raw " +:+ id ->
  email_message_of (Demo.parse raw) !! "text/plain" = Some p ->
  has_plain Demo.parse (Demo.mailbox unseen s1 s2) id p.
Proof. intros -> Hp. exists s2, ("header " +:+ id), ("raw " +:+ id), [FBytes ")"]. now split. Defined.

Lemma scan_email_search_not_ok_witness :
  scan_email Demo.parse (Demo.mailbox "1 2 3" "NO" "OK") Demo.tick
    (Demo.world (Some "INBOX") [])
  = (Ret tt,
     with_trace [EvSelect (Some "INBOX"); EvSearch; EvSend 77 (Str "NO")]
       (Demo.world (Some "INBOX") [])).
Proof.
  apply (scan_email_search_not_ok Demo.parse (Demo.mailbox "1 2 3" "NO" "OK")
           Demo.tick Demo.timer (Demo.world (Some "INBOX") []) "NO" [Some "1 2 3"]).
  - reflexivity.
  - reflexivity.
  - reflexivity.
  - discriminate.
Defined.

Lemma scan_email_relays_in_order_witness :
  scan_email Demo.parse (Demo.mailbox "1 3 4" "OK" "OK") Demo.tick
    (Demo.world (Some "INBOX") [])
  = (Ret tt,
     with_trace
       [EvSelect (Some "INBOX"); EvSearch;
        EvFetch "1"; EvSend 77 (Str "one");
        EvFetch "3"; EvSend 77 (Str "three");
        EvFetch "4"; EvSend 77 (Str "second")]
       (Demo.world (Some "INBOX") [])).
Proof.
  apply (scan_email_relays_in_order Demo.parse (Demo.mailbox "1 3 4" "OK" "OK")
           Demo.tick Demo.timer (Demo.world (Some "INBOX") []) "1 3 4" []
           [Str "one"; Str "three"; Str "second"]).
  - reflexivity.
  - reflexivity.
  - reflexivity.
  - change (Py.bytes_split "1 3 4") with ["1"; "3"; "4"].
    repeat constructor; eapply demo_has_plain; vm_compute; reflexivity.
Defined.

Lemma scan_email_aborts_at_missing_plain_witness :
  scan_email Demo.parse (Demo.mailbox "1 2 3" "OK" "OK") Demo.tick
    (Demo.world (Some "INBOX") [])
  = (Raise KeyError,
     with_trace
       [EvSelect (Some "INBOX"); EvSearch;
        EvFetch "1"; EvSend 77 (Str "one");
        EvFetch "2"]
       (Demo.world (Some "INBOX") [])).
Proof.
  apply (scan_email_aborts_at_missing_plain Demo.parse (Demo.mailbox "1 2 3" "OK" "OK")
           Demo.tick Demo.timer (Demo.world (Some "INBOX") []) "1 2 3" []
           ["1"] [Str "one"] "2" ["3"]).
  - reflexivity.
  - reflexivity.
  - reflexivity.
  - reflexivity.
  - repeat constructor. eapply demo_has_plain; vm_compute; reflexivity.
  - exists "OK", "header 2", "raw 2", [FBytes ")"]. split; vm_compute; reflexivity.
Defined.

Lemma forward_one_last_plain_part_witness :
  exists part,
    last (plain_parts (Demo.parse "raw 4")) = Some part /\
    forward_one Demo.parse (Demo.mailbox "4" "OK" "OK") (Some Demo.timer) "4"
      (Demo.world (Some "INBOX") [])
    = (Ret tt,
       with_trace
         (w_trace (Demo.world (Some "INBOX") [])
          ++ [EvFetch "4"; EvSend (job_context Demo.timer) (get_payload part)])
         (Demo.world (Some "INBOX") [])).
Proof.
  apply (forward_one_last_plain_part Demo.parse (Demo.mailbox "4" "OK" "OK") Demo.timer
           "4" "OK" "header 4" "raw 4" [FBytes ")"] (Demo.world (Some "INBOX") [])).
  - reflexivity.
  - vm_compute. lia.
Defined.

Lemma imap_trace_close_then_logout_witness :
  imap_trace Demo.network (scan_email Demo.parse) Demo.tick (Demo.world (Some "INBOX") [])
  = (Raise KeyError,
     with_trace
       [EvConnect "imap.example.org"; EvLogin "user" "secret";
        EvSelect (Some "INBOX"); EvSearch;
        EvFetch "1"; EvSend 77 (Str "one"); EvFetch "2";
        EvClose; EvLogout]
       (Demo.world (Some "INBOX") [])).
Proof.
  apply (imap_trace_close_then_logout Demo.network (scan_email Demo.parse) Demo.tick
           (Demo.world (Some "INBOX") [])
           (Demo.mailbox "1 2 3" "OK" "OK")
           (with_trace [EvConnect "imap.example.org"; EvLogin "user" "secret"]
              (Demo.world (Some "INBOX") []))
           (Raise KeyError)
           (with_trace
              [EvConnect "imap.example.org"; EvLogin "user" "secret";
               EvSelect (Some "INBOX"); EvSearch;
               EvFetch "1"; EvSend 77 (Str "one"); EvFetch "2"]
              (Demo.world (Some "INBOX") []))).
  - vm_compute. reflexivity.
  - vm_compute. reflexivity.
Defined.

Lemma set_timer_installs_exactly_one_witness :
  named "77" (w_jobs (set_timer ScanJob Demo.upd (Demo.cmd ["10"]) Demo.armed).2)
  = [installed ScanJob Demo.upd 10 Demo.armed].
Proof.
  destruct (set_timer_installs_exactly_one ScanJob Demo.upd (Demo.cmd ["10"])
              Demo.armed "10" 10) as (_ & _ & Hone & _).
  - reflexivity.
  - reflexivity.
  - lia.
  - exact demo_armed_wf.
  - reflexivity.
  - exact Hone.
Defined.

Lemma set_timer_rejected_witness :
  set_timer ScanJob Demo.upd (Demo.cmd ["-1"]) Demo.armed
  = (Ret tt,
     with_trace [EvReply 77 "Sorry we can not go back to future!"] Demo.armed)
  /\
  set_timer ScanJob Demo.upd (Demo.cmd ["abc"]) Demo.armed
  = (Ret tt, with_trace [EvReply 77 "Usage: /set <seconds>"] Demo.armed)
  /\
  set_timer ScanJob Demo.upd (Demo.cmd []) Demo.armed
  = (Ret tt, with_trace [EvReply 77 "Usage: /set <seconds>"] Demo.armed).
Proof.
  split; [|split].
  - apply (set_timer_rejected ScanJob Demo.upd (Demo.cmd ["-1"]) Demo.armed).
    apply (rejected_negative "-1" (-1) []); [reflexivity|lia].
  - apply (set_timer_rejected ScanJob Demo.upd (Demo.cmd ["abc"]) Demo.armed).
    apply (rejected_not_a_number "abc" []). reflexivity.
  - apply (set_timer_rejected ScanJob Demo.upd (Demo.cmd []) Demo.armed).
    apply rejected_absent.
Defined.

Lemma set_then_unset_twice_witness :
  let w1 := (set_timer ScanJob Demo.upd (Demo.cmd ["10"]) Demo.armed).2 in
  let w2 := (unset Demo.upd (Demo.cmd []) w1).2 in
  let w3 := (unset Demo.upd (Demo.cmd []) w2).2 in
  (unset Demo.upd (Demo.cmd []) w1).1 = Ret tt /\
  named "77" (w_jobs w2) = [] /\
  w_trace w2 = w_trace w1 ++ [EvReply 77 "Timer successfully cancelled!"] /\
  (unset Demo.upd (Demo.cmd []) w2).1 = Ret tt /\
  w_jobs w3 = w_jobs w2 /\
  w_trace w3 = w_trace w2 ++ [EvReply 77 "You have no active timer."].
Proof.
  apply (set_then_unset_twice ScanJob Demo.upd (Demo.cmd ["10"]) (Demo.cmd [])
           (Demo.cmd []) Demo.armed "10" 10).
  - reflexivity.
  - reflexivity.
  - lia.
  - exact demo_armed_wf.
  - reflexivity.
Defined.


(** C1, as the spec has it, fails: 86400000000000 is a non-negative
    integer, and a [/set] with it ends in [OverflowError] with no job under
    the chat's key.  The timer the chat had is gone as well, and no reply
    was sent. *)
Lemma set_timer_interval_too_large :
  Py.int "86400000000000" = Some 86400000000000 /\
  0 <= 86400000000000 /\
  wf_queue Demo.armed /\
  named (key Demo.upd) (w_jobs Demo.armed) = [Demo.timer] /\
  (set_timer ScanJob Demo.upd (Demo.cmd ["86400000000000"]) Demo.armed).1
  = Raise OverflowError /\
  named (key Demo.upd)
    (w_jobs (set_timer ScanJob Demo.upd (Demo.cmd ["86400000000000"]) Demo.armed).2)
  = [] /\
  w_trace (set_timer ScanJob Demo.upd (Demo.cmd ["86400000000000"]) Demo.armed).2 = [].
Proof.
  split; [reflexivity|]. split; [lia|]. split; [exact demo_armed_wf|].
  vm_compute. repeat split.
Qed.

(** C6, as the spec has it, fails: after a [/set] with the non-negative
    interval 86400000000000, which ends in [OverflowError], [/unset] finds
    nothing to remove and replies that there is no active timer. *)
Lemma set_too_large_then_unset :
  Py.int "86400000000000" = Some 86400000000000 /\
  0 <= 86400000000000 /\
  let w1 := (set_timer ScanJob Demo.upd (Demo.cmd ["86400000000000"])
               (Demo.world None [])).2 in
  (set_timer ScanJob Demo.upd (Demo.cmd ["86400000000000"]) (Demo.world None [])).1
  = Raise OverflowError /\
  unset Demo.upd (Demo.cmd []) w1
  = (Ret tt, with_trace [EvReply 77 "You have no active timer."] (Demo.world None [])).
Proof.
  split; [reflexivity|]. split; [lia|]. vm_compute. repeat split.
Qed.

(** ** What a run leaves alone *)

Lemma only_traced_refl w : only_traced w w.
Proof. exists []. now rewrite app_nil_r, with_trace_same. Qed.

Lemma only_traced_trans w1 w2 w3 :
  only_traced w1 w2 -> only_traced w2 w3 -> only_traced w1 w3.
Proof.
  intros [t1 ->] [t2 ->]. exists (t1 ++ t2). simpl. now rewrite app_assoc.
Qed.

Lemma traced_ret {A} (a : A) : traced (ret a).
Proof. intros w. apply only_traced_refl. Qed.

Lemma traced_raise {A} (e : Exn) : traced (@raise A e).
Proof. intros w. apply only_traced_refl. Qed.

Lemma traced_answer {A} (o : Outcome A) : traced (answer o).
Proof. intros w. apply only_traced_refl. Qed.

Lemma traced_emit (e : Event) : traced (emit e).
Proof. intros w. now exists [e]. Qed.

Lemma traced_get_storage : traced get_storage.
Proof. intros w. apply only_traced_refl. Qed.

Lemma traced_bind {A B} (m : M A) (k : A -> M B) :
  traced m -> (forall a, traced (k a)) -> traced (bind m k).
Proof.
  intros Hm Hk w. unfold bind. specialize (Hm w).
  destruct (m w) as [[a|e] w1]; simpl in Hm; [|exact Hm].
  eapply only_traced_trans; [exact Hm|apply Hk].
Qed.

Lemma traced_for_each {A} (l : list A) (body : A -> M unit) :
  (forall x, traced (body x)) -> traced (for_each l body).
Proof.
  intros Hbody. induction l as [|x l IH]; simpl.
  - apply traced_ret.
  - apply traced_bind; [apply Hbody|intros _; exact IH].
Qed.

Lemma traced_try_except_pass (body : M unit) : traced body -> traced (try_except_pass body).
Proof.
  intros Hb w. unfold try_except_pass. specialize (Hb w).
  now destruct (body w) as [r w1].
Qed.

Lemma traced_try_finally {A} (body : M A) (cleanup : M unit) :
  traced body -> traced cleanup -> traced (try_finally body cleanup).
Proof.
  intros Hb Hc w. unfold try_finally. specialize (Hb w).
  destruct (body w) as [r w1]. specialize (Hc w1).
  destruct (cleanup w1) as [[[]|e] w2]; eapply only_traced_trans; eassumption.
Qed.

Lemma traced_index {A} (l : list A) i : traced (index l i).
Proof. unfold index. destruct (l !! i); [apply traced_ret|apply traced_raise]. Qed.

Lemma traced_deref o : traced (deref o).
Proof. destruct o; [apply traced_ret|apply traced_raise]. Qed.

Lemma traced_context_of j : traced (context_of j).
Proof. destruct j; [apply traced_ret|apply traced_raise]. Qed.

Lemma traced_raw_message data : traced (raw_message data).
Proof.
  unfold raw_message. apply traced_bind; [apply traced_index|].
  intros [envelope body|[|a [|b s]]|]; try apply traced_raise. apply traced_ret.
Qed.

Lemma traced_mail_command {A} (e : Event) (o : Outcome A) : traced (emit e ;;; answer o).
Proof. apply traced_bind; [apply traced_emit|intros _; apply traced_answer]. Qed.

Lemma traced_forward_one parse mail j id : traced (forward_one parse mail j id).
Proof.
  unfold forward_one. apply traced_bind; [apply traced_mail_command|].
  intros [result data]. apply traced_bind; [apply traced_raw_message|]. intros raw.
  apply traced_bind.
  - destruct (_ !! _); [apply traced_ret|apply traced_raise].
  - intros p. apply traced_bind; [apply traced_context_of|].
    intros chat. apply traced_emit.
Qed.

(** [scan_email] opens with the SELECT of the configured folder; all it
    does after that only adds to the trace. *)
Lemma scan_email_shape parse mail context w :
  exists t,
    (scan_email parse mail context w).2
    = with_trace (w_trace w ++ EvSelect (st_folder (w_storage w)) :: t) w.
Proof.
  unfold scan_email, get_storage, mail_select. unfold bind at 1 2 3.
  unfold emit at 1, answer at 1.
  destruct (imap_select mail (st_folder (w_storage w))) as [[]|e].
  - set (w1 := with_trace _ w).
    match goal with |- context [bind ?m ?k w1] => assert (Hrest : traced (bind m k)) end.
    { apply traced_bind; [apply traced_mail_command|].
      intros [result data]. destruct (decide (result = "OK")).
      - apply traced_bind; [apply traced_index|]. intros d.
        apply traced_bind; [apply traced_deref|]. intros b.
        apply traced_for_each. intros id. apply traced_forward_one.
      - apply traced_bind; [apply traced_context_of|]. intros chat. apply traced_emit. }
    destruct (Hrest w1) as [t Ht]. exists t. rewrite Ht. subst w1. simpl.
    now rewrite <- app_assoc.
  - exists []. reflexivity.
Qed.

Section ScanEdges.

Variable message_from_bytes : string -> Message.
Variable mail : IMAP4.

(** X1. Whatever the server answers and however the scan ends,
    [scan_email] changes nothing but the trace: the settings, the job queue
    and standard input are as before. *)
Theorem scan_email_only_traces context : traced (scan_email message_from_bytes mail context).
Proof.
  intros w. destruct (scan_email_shape message_from_bytes mail context w) as [t Ht].
  rewrite Ht. now exists (EvSelect (st_folder (w_storage w)) :: t).
Qed.

(** A turn of the loop either has a body to forward or raises right after
    its fetch. *)
Lemma forward_one_cases j id :
  (exists p, has_plain message_from_bytes mail id p) \/
  (forall p, ~ has_plain message_from_bytes mail id p) /\
  exists e, forall w,
    forward_one message_from_bytes mail (Some j) id w
    = (Raise e, with_trace (w_trace w ++ [EvFetch id]) w).
Proof.
  unfold has_plain, forward_one, mail_fetch, bind, emit, answer, raw_message, index.
  destruct (imap_fetch mail id) as [[status data]|e] eqn:Hf;
    [|right; split; [intros p (? & ? & ? & ? & [=] & _)|now exists e]].
  destruct data as [|item rest];
    [right; split; [intros p (? & ? & ? & ? & [=] & _)|now exists IndexError]|].
  destruct item as [envelope raw|b|].
  - destruct (email_message_of (message_from_bytes raw) !! "text/plain") as [p|] eqn:Hp.
    + left. now exists p, status, envelope, raw, rest.
    + right. split.
      * intros p (? & ? & ? & ? & [= <- <- <- <-] & Hp'). congruence.
      * exists KeyError. intros w. simpl. now rewrite Hp.
  - right. split; [intros p (? & ? & ? & ? & [=] & _)|].
    destruct b as [|a [|c b]]; eexists; intros w; reflexivity.
  - right. split; [intros p (? & ? & ? & ? & [=] & _)|].
    eexists; intros w; reflexivity.
Qed.

Lemma for_each_prefix j ids :
  forall w,
  exists pre bodies post,
    ids = pre ++ post /\
    Forall2 (has_plain message_from_bytes mail) pre bodies /\
    (forall bad post', post = bad :: post' ->
       forall p, ~ has_plain message_from_bytes mail bad p) /\
    (for_each ids (forward_one message_from_bytes mail (Some j)) w).2
    = with_trace (w_trace w ++ relayed (job_context j) pre bodies ++ stopped_at post) w /\
    ((for_each ids (forward_one message_from_bytes mail (Some j)) w).1 = Ret tt
     <-> post = []).
Proof.
  induction ids as [|id ids IH]; intros w.
  - exists [], [], []. simpl. rewrite app_nil_r, with_trace_same.
    repeat split; try constructor; try discriminate.
  - destruct (forward_one_cases j id) as [[p Hp]|[Hno [e He]]].
    + destruct (IH (with_trace (w_trace w ++ [EvFetch id; EvSend (job_context j) p]) w))
        as (pre & bodies & post & -> & Hpre & Hbad & Hw & Hr).
      exists (id :: pre), (p :: bodies), post. simpl.
      rewrite (bind_ret _ _ _ _ _ (forward_one_plain _ _ _ _ _ _ Hp)).
      split; [reflexivity|]. split; [now constructor|]. split; [exact Hbad|].
      split; [|exact Hr].
      rewrite Hw. unfold relayed. simpl. now rewrite <- app_assoc.
    + exists [], [], (id :: ids). simpl.
      rewrite (bind_raise _ _ _ _ _ (He w)). simpl.
      split; [reflexivity|]. split; [constructor|]. split.
      * intros bad post' [= <- <-]. exact Hno.
      * split; [reflexivity|]. split; discriminate.
Qed.

(** X2. With a successful search, whatever the server does with the
    fetches, the scan forwards a prefix of the unseen identifiers, each body
    right after its fetch and in the order of the list, and stops at the
    first message that cannot be forwarded: that one is fetched, nothing is
    sent for it, and no later message is touched.  The scan returns
    normally exactly when the prefix is the whole list. *)
Theorem scan_email_forwards_prefix context j w b rest :
  job context = Some j ->
  imap_select mail (st_folder (w_storage w)) = Ret tt ->
  imap_search mail = Ret ("OK", Some b :: rest) ->
  exists pre bodies post,
    Py.bytes_split b = pre ++ post /\
    Forall2 (has_plain message_from_bytes mail) pre bodies /\
    (forall bad post', post = bad :: post' ->
       forall p, ~ has_plain message_from_bytes mail bad p) /\
    (scan_email message_from_bytes mail context w).2
    = with_trace (searched w ++ relayed (job_context j) pre bodies ++ stopped_at post) w /\
    ((scan_email message_from_bytes mail context w).1 = Ret tt <-> post = []).
Proof.
  intros Hjob Hsel Hsearch.
  rewrite (scan_email_search _ _ _ _ _ Hsel Hsearch).
  destruct (decide ("OK" = "OK")) as [_|Hne]; [|contradiction].
  rewrite Hjob. unfold index, deref. cbn [lookup list_lookup].
  unfold bind at 1 2 3 4, ret at 1 2 3 4.
  destruct (for_each_prefix j (Py.bytes_split b) (with_trace (searched w) w))
    as (pre & bodies & post & Hids & Hpre & Hbad & Hw & Hr).
  exists pre, bodies, post. repeat split; try assumption; apply Hr.
Qed.

(** X3. A successful search whose data list is empty, or whose first item
    is [None], makes the scan raise ([IndexError], [AttributeError]) right
    after the search: nothing is fetched and nothing is sent. *)
Theorem scan_email_search_without_data context w data :
  imap_select mail (st_folder (w_storage w)) = Ret tt ->
  imap_search mail = Ret ("OK", data) ->
  data !! 0%nat = None \/ data !! 0%nat = Some None ->
  scan_email message_from_bytes mail context w
  = (Raise (if data is [] then IndexError else AttributeError),
     with_trace (searched w) w).
Proof.
  intros Hsel Hsearch Hdata.
  rewrite (scan_email_search _ _ _ _ _ Hsel Hsearch).
  destruct (decide ("OK" = "OK")) as [_|Hne]; [|contradiction].
  unfold index. destruct data as [|[d|] data]; simpl in Hdata.
  - reflexivity.
  - destruct Hdata as [[=]|[=]].
  - reflexivity.
Qed.

(** X4. When SELECT raises, the scan ends with that exception before any
    search: the select is the only command the server sees. *)
Theorem scan_email_select_raises context w e :
  imap_select mail (st_folder (w_storage w)) = Raise e ->
  scan_email message_from_bytes mail context w
  = (Raise e, with_trace (w_trace w ++ [EvSelect (st_folder (w_storage w))]) w).
Proof.
  intros Hsel.
  unfold scan_email, get_storage, mail_select. unfold bind at 1 2 3.
  unfold emit at 1, answer at 1. now rewrite Hsel.
Qed.

(** X5. When the search itself raises, the scan ends with that exception
    and sends nothing, not even a diagnostic. *)
Theorem scan_email_search_raises context w e :
  imap_select mail (st_folder (w_storage w)) = Ret tt ->
  imap_search mail = Raise e ->
  scan_email message_from_bytes mail context w = (Raise e, with_trace (searched w) w).
Proof.
  intros Hsel Hsearch.
  unfold scan_email, mail_select, mail_search, get_storage, bind, emit, answer.
  simpl. rewrite Hsel, Hsearch. unfold searched. now rewrite <- app_assoc.
Qed.

End ScanEdges.

(** ** The parts of a message *)

(** X6. The mapping built from a message has exactly the content types
    that occur in its walk as keys. *)
Theorem email_message_of_keys (m : Message) (k : string) :
  is_Some (email_message_of m !! k)
  <-> exists part, part ∈ walk m /\ get_content_type part = k.
Proof.
  rewrite email_message_of_lookup, fmap_is_Some. split.
  - intros [part Hlast]. exists part.
    apply last_Some_elem_of, list_elem_of_filter in Hlast. tauto.
  - intros (part & Hin & Hk).
    destruct (last (filter (fun part => get_content_type part = k) (walk m)))
      as [x|] eqn:Hlast; [now exists x|].
    apply last_None in Hlast.
    exfalso. eapply filter_nil_not_elem_of; [exact Hlast| |exact Hin]. exact Hk.
Qed.

Section ScanMessages.

Variable message_from_bytes : string -> Message.
Variable mail : IMAP4.

(** X7. A fetched message none of whose parts is typed [text/plain] makes
    the turn raise [KeyError] after the fetch, whoever the job is; nothing
    is sent for it. *)
Theorem forward_one_without_plain_part j id status envelope raw rest w :
  imap_fetch mail id = Ret (status, FPair envelope raw :: rest) ->
  plain_parts (message_from_bytes raw) = [] ->
  forward_one message_from_bytes mail j id w
  = (Raise KeyError, with_trace (w_trace w ++ [EvFetch id]) w).
Proof.
  intros Hfetch Hnone. apply forward_one_no_plain.
  exists status, envelope, raw, rest. split; [assumption|].
  rewrite email_message_of_lookup. fold (plain_parts (message_from_bytes raw)).
  now rewrite Hnone.
Qed.

(** X8. A message that is not multipart is forwarded as its body when its
    own type is [text/plain], and makes the turn raise [KeyError]
    otherwise. *)
Theorem forward_one_single_part j id status envelope raw rest c body w :
  imap_fetch mail id = Ret (status, FPair envelope raw :: rest) ->
  message_from_bytes raw = Leaf c body ->
  forward_one message_from_bytes mail (Some j) id w
  = if decide (c = "text/plain")
    then (Ret tt, with_trace (w_trace w ++ [EvFetch id; EvSend (job_context j) (Str body)]) w)
    else (Raise KeyError, with_trace (w_trace w ++ [EvFetch id]) w).
Proof.
  intros Hfetch Hleaf.
  assert (Hlook : email_message_of (message_from_bytes raw) !! "text/plain"
                  = if decide (c = "text/plain") then Some (Str body) else None).
  { rewrite Hleaf. unfold email_message_of. simpl.
    destruct (decide (c = "text/plain")) as [->|Hc].
    - apply lookup_insert_eq.
    - rewrite lookup_insert_ne by assumption. apply lookup_empty. }
  destruct (decide (c = "text/plain")).
  - apply forward_one_plain. now exists status, envelope, raw, rest.
  - apply forward_one_no_plain. now exists status, envelope, raw, rest.
Qed.

End ScanMessages.

(** ** The wrapper when the connection fails, and the whole cycle *)

Section Cycle.

Variable IMAP4_SSL : string -> Outcome IMAP4.

Lemma create_imap_connection_run w c :
  IMAP4_SSL (st_mail (w_storage w)) = Ret c ->
  create_imap_connection IMAP4_SSL w
  = (match imap_login c (st_login (w_storage w)) (st_password (w_storage w)) with
     | Ret _ => Ret c
     | Raise e => Raise e
     end,
     with_trace
       (w_trace w ++
        [EvConnect (st_mail (w_storage w));
         EvLogin (st_login (w_storage w)) (st_password (w_storage w))]) w).
Proof.
  intros Hnet. unfold create_imap_connection, get_storage, mail_login, bind, emit, answer.
  simpl. rewrite Hnet. simpl. rewrite <- app_assoc.
  now destruct (imap_login c _ _) as [[]|e].
Qed.

(** X9. When the server is reached and the login is refused, the wrapper
    ends with the exception of the login; the wrapped function does not
    run, and the connection is neither closed nor logged out. *)
Theorem imap_trace_login_refused {A} (func : IMAP4 -> A -> M unit) (a : A) w c e :
  IMAP4_SSL (st_mail (w_storage w)) = Ret c ->
  imap_login c (st_login (w_storage w)) (st_password (w_storage w)) = Raise e ->
  imap_trace IMAP4_SSL func a w
  = (Raise e,
     with_trace
       (w_trace w ++
        [EvConnect (st_mail (w_storage w));
         EvLogin (st_login (w_storage w)) (st_password (w_storage w))]) w).
Proof.
  intros Hnet Hlogin. unfold imap_trace.
  pose proof (create_imap_connection_run w c Hnet) as Hopen.
  rewrite Hlogin in Hopen. now rewrite (bind_raise _ _ _ _ _ Hopen).
Qed.

(** X10. The wrapper adds no state change of its own: around a function
    that only adds to the trace, the wrapper only adds to the trace, on
    every path (refused connection, failing body, failing close or
    logout). *)
Theorem imap_trace_only_traces {A} (func : IMAP4 -> A -> M unit) (a : A) :
  (forall c, traced (func c a)) -> traced (imap_trace IMAP4_SSL func a).
Proof.
  intros Hfunc. unfold imap_trace. apply traced_bind.
  - unfold create_imap_connection.
    apply traced_bind; [apply traced_get_storage|]. intros storage.
    apply traced_bind; [apply traced_emit|]. intros _.
    apply traced_bind; [apply traced_answer|]. intros mail.
    apply traced_bind; [apply traced_mail_command|]. intros _. apply traced_ret.
  - intros c. apply traced_try_finally; [apply Hfunc|].
    apply traced_bind.
    + apply traced_try_except_pass, traced_mail_command.
    + intros _. apply traced_mail_command.
Qed.

(** X11. One whole cycle of the scheduled job on a mailbox that answers:
    connect, login, select, search, then for each unseen message its fetch
    and the send of its body, then close and logout, in this order and
    nothing else.  A failing close does not change the result. *)
Theorem scan_job_delivers parse context j w c b rest bodies :
  IMAP4_SSL (st_mail (w_storage w)) = Ret c ->
  imap_login c (st_login (w_storage w)) (st_password (w_storage w)) = Ret tt ->
  job context = Some j ->
  imap_select c (st_folder (w_storage w)) = Ret tt ->
  imap_search c = Ret ("OK", Some b :: rest) ->
  Forall2 (has_plain parse c) (Py.bytes_split b) bodies ->
  imap_logout c = Ret tt ->
  scan_job IMAP4_SSL parse context w
  = (Ret tt,
     with_trace
       (w_trace w ++
        [EvConnect (st_mail (w_storage w));
         EvLogin (st_login (w_storage w)) (st_password (w_storage w));
         EvSelect (st_folder (w_storage w)); EvSearch]
        ++ relayed (job_context j) (Py.bytes_split b) bodies
        ++ [EvClose; EvLogout]) w).
Proof.
  intros Hnet Hlogin Hjob Hsel Hsearch Hall Hlogout.
  unfold scan_job, imap_trace.
  pose proof (create_imap_connection_run w c Hnet) as Hopen. rewrite Hlogin in Hopen.
  rewrite (bind_ret _ _ _ _ _ Hopen). unfold try_finally.
  set (w0 := with_trace _ w).
  rewrite (scan_email_search parse c context w0 _ Hsel Hsearch).
  destruct (decide ("OK" = "OK")) as [_|Hne]; [|contradiction].
  rewrite Hjob. unfold index, deref. cbn [lookup list_lookup].
  match goal with
  | |- context [bind (ret (Some b)) ?k ?W] =>
      change (bind (ret (Some b)) k W)
        with (for_each (Py.bytes_split b) (forward_one parse c (Some j)) W)
  end.
  rewrite (for_each_relayed _ _ _ _ _ Hall).
  unfold try_except_pass, mail_close, mail_logout, bind, emit, answer. simpl.
  rewrite Hlogout.
  destruct (imap_close c) as [[]|e1]; f_equal; unfold with_trace; simpl; f_equal;
    unfold searched; simpl; now rewrite <- !app_assoc.
Qed.

End Cycle.

(** ** More on the folder prompt *)

Section PromptEdges.

Variable imap_utf7_decode : string -> Outcome string.
Variable mail : IMAP4.

(** The numbering loop stops at the first line whose turn raises. *)
Lemma for_fold_numbering_stops pre lines bad post e :
  Forall2 (folder_line imap_utf7_decode) pre lines ->
  (forall num (d : gmap Z string) w,
     number_folder imap_utf7_decode d (num, bad) w = (Raise e, w)) ->
  forall start (d : gmap Z string) w,
    for_fold (enumerate (pre ++ bad :: post) start) d (number_folder imap_utf7_decode) w
    = (Raise e, with_trace (w_trace w ++ listing lines.*2 start) w).
Proof.
  intros Hpre Hbad.
  induction Hpre as [|f [name shown] pre lines (b & -> & Hdec & Hname & Hshown) _ IH];
    intros start d w.
  - cbn [app enumerate for_fold].
    rewrite (bind_raise _ _ _ _ _ (Hbad start d w)).
    unfold listing. simpl. now rewrite app_nil_r, with_trace_same.
  - cbn [app enumerate for_fold]. simpl in Hname, Hshown.
    rewrite (bind_ret _ _ _ _ _
               (number_folder_line imap_utf7_decode _ _ _ _ _ _ Hdec Hname Hshown)).
    rewrite IH. unfold listing. simpl. now rewrite <- app_assoc.
Qed.

(** X12. With a listing that succeeds, a number outside 1..(number of
    folders) stores INBOX; the lines were printed numbered from 1 and the
    line was taken from standard input. *)
Theorem select_email_folder_out_of_range w folders lines line rest n :
  imap_list mail = Ret ("OK", folders) ->
  Forall2 (folder_line imap_utf7_decode) folders lines ->
  w_stdin w = line :: rest ->
  Py.int line = Some n ->
  n < 1 \/ Z.of_nat (length folders) < n ->
  exists w',
    select_email_folder imap_utf7_decode mail tt w = (Ret tt, w') /\
    w_trace w'
    = w_trace w ++ [EvList] ++ listing lines.*2 1
      ++ [EvPrompt "Select number of folder:"] /\
    st_folder (w_storage w') = Some "INBOX".
Proof.
  intros Hlist Hlines Hin Hint Hn.
  destruct (select_email_folder_numeric imap_utf7_decode mail w folders lines line rest n
              Hlist Hlines Hin Hint) as (w' & Hrun & Htrace & Hfolder).
  exists w'. split; [exact Hrun|]. split; [exact Htrace|].
  rewrite Hfolder. f_equal. apply chosen_out_of_range.
  now rewrite length_fmap, <- (Forall2_length _ _ _ Hlines).
Qed.

(** X13. With a listing that succeeds, the number [n] of a listed line
    stores what follows the separator on line [n], counting from 1. *)
Theorem select_email_folder_in_range w folders lines line rest n name :
  imap_list mail = Ret ("OK", folders) ->
  Forall2 (folder_line imap_utf7_decode) folders lines ->
  w_stdin w = line :: rest ->
  Py.int line = Some n ->
  1 <= n ->
  lines.*1 !! Z.to_nat (n - 1) = Some name ->
  exists w',
    select_email_folder imap_utf7_decode mail tt w = (Ret tt, w') /\
    st_folder (w_storage w') = Some name.
Proof.
  intros Hlist Hlines Hin Hint Hn Hname.
  destruct (select_email_folder_numeric imap_utf7_decode mail w folders lines line rest n
              Hlist Hlines Hin Hint) as (w' & Hrun & _ & Hfolder).
  exists w'. split; [exact Hrun|].
  rewrite Hfolder. f_equal. unfold chosen.
  pose proof (lookup_lt_Some _ _ _ Hname) as Hlt.
  destruct (decide (1 <= n <= Z.of_nat (length lines.*1))) as [_|Hout]; [|lia].
  now rewrite Hname.
Qed.

(** X14. When LIST answers with a status other than OK, nothing is listed
    and every number stores INBOX. *)
Theorem select_email_folder_list_not_ok w result folders line rest n :
  imap_list mail = Ret (result, folders) ->
  result <> "OK" ->
  w_stdin w = line :: rest ->
  Py.int line = Some n ->
  select_email_folder imap_utf7_decode mail tt w
  = (Ret tt,
     with_storage (set_folder (Some "INBOX") (w_storage w))
       (with_stdin rest
          (with_trace (w_trace w ++ [EvList; EvPrompt "Select number of folder:"]) w))).
Proof.
  intros Hlist Hresult Hin Hint. pose proof (int_decodable _ _ Hint) as Hdec.
  unfold select_email_folder, mail_list, bind at 1 2, emit, answer. simpl.
  rewrite Hlist. destruct (decide (result = "OK")) as [|_]; [contradiction|].
  unfold input, bind, emit, int, set_storage_folder, ret. simpl.
  rewrite Hin, Hdec, Hint. rewrite lookup_empty. simpl.
  unfold with_storage, with_stdin, with_trace. simpl. now rewrite <- app_assoc.
Qed.

(** X15. A LIST line that decodes and does not contain the separator stops
    the prompt with [IndexError] after the lines before it were printed:
    no selection is asked for, standard input is not read and the folder
    stays as it was. *)
Theorem select_email_folder_line_without_separator w pre lines b post :
  imap_list mail = Ret ("OK", pre ++ Some b :: post) ->
  Forall2 (folder_line imap_utf7_decode) pre lines ->
  Py.decode b = Some b ->
  Py.str_split b Py.folder_sep !! 1%nat = None ->
  select_email_folder imap_utf7_decode mail tt w
  = (Raise IndexError, with_trace (w_trace w ++ [EvList] ++ listing lines.*2 1) w).
Proof.
  intros Hlist Hpre Hdec Hbad.
  unfold select_email_folder, mail_list, bind at 1 2, emit, answer. simpl.
  rewrite Hlist. destruct (decide ("OK" = "OK")) as [_|Hne]; [|contradiction].
  assert (Hturn : forall num (d : gmap Z string) w0,
             number_folder imap_utf7_decode d (num, Some b) w0 = (Raise IndexError, w0)).
  { intros num d w0. unfold number_folder, deref, decode, index.
    unfold bind at 1. unfold ret at 1. rewrite Hdec.
    unfold bind at 1. unfold ret at 1. now rewrite Hbad. }
  rewrite (bind_raise _ _ _ _ _
             (for_fold_numbering_stops pre lines (Some b) post IndexError Hpre Hturn 1 ∅ _)).
  simpl. now rewrite <- app_assoc.
Qed.

(** X22. A LIST line that is not UTF-8 stops the prompt with
    [UnicodeDecodeError] after the lines before it were printed, whether
    it has the separator or not; the folder stays as it was. *)
Theorem select_email_folder_line_not_utf8 w pre lines b post :
  imap_list mail = Ret ("OK", pre ++ Some b :: post) ->
  Forall2 (folder_line imap_utf7_decode) pre lines ->
  Py.decode b = None ->
  select_email_folder imap_utf7_decode mail tt w
  = (Raise UnicodeDecodeError,
     with_trace (w_trace w ++ [EvList] ++ listing lines.*2 1) w).
Proof.
  intros Hlist Hpre Hdec.
  unfold select_email_folder, mail_list, bind at 1 2, emit, answer. simpl.
  rewrite Hlist. destruct (decide ("OK" = "OK")) as [_|Hne]; [|contradiction].
  assert (Hturn : forall num (d : gmap Z string) w0,
             number_folder imap_utf7_decode d (num, Some b) w0
             = (Raise UnicodeDecodeError, w0)).
  { intros num d w0. unfold number_folder, deref, decode.
    unfold bind at 1. unfold ret at 1. now rewrite Hdec. }
  rewrite (bind_raise _ _ _ _ _
             (for_fold_numbering_stops pre lines (Some b) post UnicodeDecodeError
                Hpre Hturn 1 ∅ _)).
  simpl. now rewrite <- app_assoc.
Qed.

(** X16. With a listing that succeeds, a typed line that decodes and that
    [int] does not accept ends the prompt with [ValueError] after the line
    was read: the folder is not set, to INBOX or otherwise. *)
Theorem select_email_folder_value_error w folders lines line rest :
  imap_list mail = Ret ("OK", folders) ->
  Forall2 (folder_line imap_utf7_decode) folders lines ->
  w_stdin w = line :: rest ->
  Py.decode line = Some line ->
  Py.int line = None ->
  select_email_folder imap_utf7_decode mail tt w
  = (Raise ValueError,
     with_stdin rest
       (with_trace
          (w_trace w ++ [EvList] ++ listing lines.*2 1
           ++ [EvPrompt "Select number of folder:"]) w)).
Proof.
  intros Hlist Hlines Hin Hdec Hint.
  unfold select_email_folder, mail_list, bind at 1 2, emit, answer. simpl.
  rewrite Hlist. destruct (decide ("OK" = "OK")) as [_|Hne]; [|contradiction].
  destruct (for_fold_numbering imap_utf7_decode folders lines Hlines 1 ∅
              (with_trace (w_trace w ++ [EvList]) w)) as (d & Hrun & _).
  rewrite (bind_ret _ _ _ _ _ Hrun).
  unfold input, bind, emit, int. simpl. rewrite Hin, Hdec, Hint.
  unfold raise, with_stdin, with_trace. simpl. now rewrite <- !app_assoc.
Qed.

(** X17. The folder picked at the prompt is the folder the scan selects:
    [select_email_folder] writes into the one [storage] dict that
    [scan_email] later reads. *)
Theorem chosen_folder_is_scanned parse mail' context w folders lines line rest n :
  imap_list mail = Ret ("OK", folders) ->
  Forall2 (folder_line imap_utf7_decode) folders lines ->
  w_stdin w = line :: rest ->
  Py.int line = Some n ->
  let w' := (select_email_folder imap_utf7_decode mail tt w).2 in
  exists t,
    w_trace (scan_email parse mail' context w').2
    = w_trace w' ++ EvSelect (Some (chosen lines.*1 n)) :: t.
Proof.
  intros Hlist Hlines Hin Hint.
  destruct (select_email_folder_numeric imap_utf7_decode mail w folders lines line rest n
              Hlist Hlines Hin Hint) as (w1 & Hrun & _ & Hfolder).
  rewrite Hrun. cbn [snd].
  destruct (scan_email_shape parse mail' context w1) as [t Ht].
  exists t. rewrite Ht. simpl. now rewrite Hfolder.
Qed.

End PromptEdges.

(** ** More on the timers *)

(** X18. On a well-formed queue [remove_job_if_exists] returns whether a
    job carried the name, leaves no job under it however many there were,
    and leaves the jobs under every other name as they are; called again it
    returns [False] and changes nothing. *)
Theorem remove_job_if_exists_twice name c1 c2 w :
  wf_queue w ->
  let r1 := remove_job_if_exists name c1 w in
  r1.1 = Ret (bool_decide (named name (w_jobs w) <> [])) /\
  named name (w_jobs r1.2) = [] /\
  (forall k, k <> name -> named k (w_jobs r1.2) = named k (w_jobs w)) /\
  remove_job_if_exists name c2 r1.2 = (Ret false, r1.2).
Proof.
  intros Hwf. cbv zeta.
  rewrite (remove_job_if_exists_run name c1 w Hwf). cbn [fst snd].
  set (w1 := with_jobs _ _ w).
  assert (Hwf1 : wf_queue w1) by now apply wf_queue_filter.
  assert (Hnone : named name (w_jobs w1) = []) by apply named_others_same.
  split; [reflexivity|]. split; [exact Hnone|]. split.
  - intros k Hk. now apply named_others_other.
  - rewrite (remove_job_if_exists_run name c2 w1 Hwf1). rewrite Hnone.
    rewrite bool_decide_eq_false_2 by (intros H; now apply H).
    f_equal. rewrite filter_all; [apply with_jobs_same|].
    intros j Hj Hname.
    eapply (filter_nil_not_elem_of _ _ j Hnone); eassumption.
Qed.

Section TimerRuns.

Variable callback : Callable.
Variable update : Update.

(** X19. Two [/set] commands in a row that the scheduler takes, from a
    chat without a timer: the first reply is the plain confirmation, the
    second says the old timer was removed, and the chat ends with one job,
    which runs at the second interval (every second when that is 0). *)
Theorem set_timer_twice c1 c2 w a1 n1 a2 n2 :
  wf_queue w ->
  named (key update) (w_jobs w) = [] ->
  args c1 !! 0%nat = Some a1 -> Py.int a1 = Some n1 -> 0 <= n1 ->
  schedulable (w_clock w) n1 = true ->
  args c2 !! 0%nat = Some a2 -> Py.int a2 = Some n2 -> 0 <= n2 ->
  schedulable (w_clock w) n2 = true ->
  let w1 := (set_timer callback update c1 w).2 in
  let w2 := (set_timer callback update c2 w1).2 in
  job_interval <$> named (key update) (w_jobs w2) = [effective_interval n2] /\
  w_trace w2
  = w_trace w ++
    [EvReply (chat_id update) "Timer successfully set!";
     EvReply (chat_id update) "Timer successfully set! Old one was removed."].
Proof.
  intros Hwf Hnone Ha1 Hint1 Hn1 Hs1 Ha2 Hint2 Hn2 Hs2. cbv zeta.
  rewrite (set_timer_accepted _ _ _ _ _ _ Ha1 Hint1 Hn1 Hwf Hs1). cbn [snd].
  set (w1 := with_trace _ (with_jobs _ _ w)).
  assert (Hwf1 : wf_queue w1) by now apply wf_queue_installed.
  assert (Hone : named (key update) (w_jobs w1) = [installed callback update n1 w])
    by apply named_installed.
  assert (Hs2' : schedulable (w_clock w1) n2 = true) by exact Hs2.
  rewrite (set_timer_accepted _ _ _ _ _ _ Ha2 Hint2 Hn2 Hwf1 Hs2'). cbn [snd].
  split.
  - cbn [w_jobs with_trace with_jobs]. now rewrite named_installed.
  - rewrite Hone. rewrite bool_decide_eq_true_2 by discriminate.
    subst w1. cbn [w_trace with_trace with_jobs]. rewrite Hnone.
    rewrite bool_decide_eq_false_2 by (intros H; now apply H).
    now rewrite <- app_assoc.
Qed.

(** X20. [/unset] from one chat leaves the timers of every other chat as
    they are. *)
Theorem unset_keeps_other_chats context other w :
  wf_queue w ->
  chat_id other <> chat_id update ->
  named (key other) (w_jobs (unset update context w).2) = named (key other) (w_jobs w).
Proof.
  intros Hwf Hchat. rewrite (unset_run _ _ _ Hwf). cbn [snd w_jobs with_trace with_jobs].
  apply named_others_other. intros Hkey. now apply Hchat, key_inj.
Qed.

End TimerRuns.

(** ** The further properties on the small mailbox *)

Lemma demo_world_wf folder stdin : wf_queue (Demo.world folder stdin).
Proof. split; [apply NoDup_nil_2|apply Forall_nil_2]. Defined.

Lemma demo_folder_lines : Forall2 (folder_line Demo.decode) Demo.listed Demo.lines.
Proof.
  repeat constructor; eexists;
    (split; [reflexivity|]; split; [reflexivity|]; split; vm_compute; reflexivity).
Defined.

Lemma scan_email_forwards_prefix_witness :
  exists pre bodies post,
    Py.bytes_split "1 2 3" = pre ++ post /\
    Forall2 (has_plain Demo.parse (Demo.mailbox "1 2 3" "OK" "OK")) pre bodies /\
    (forall bad post', post = bad :: post' ->
       forall p, ~ has_plain Demo.parse (Demo.mailbox "1 2 3" "OK" "OK") bad p) /\
    (scan_email Demo.parse (Demo.mailbox "1 2 3" "OK" "OK") Demo.tick
       (Demo.world (Some "INBOX") [])).2
    = with_trace
        (searched (Demo.world (Some "INBOX") [])
         ++ relayed (job_context Demo.timer) pre bodies ++ stopped_at post)
        (Demo.world (Some "INBOX") []) /\
    ((scan_email Demo.parse (Demo.mailbox "1 2 3" "OK" "OK") Demo.tick
        (Demo.world (Some "INBOX") [])).1 = Ret tt <-> post = []).
Proof.
  apply (scan_email_forwards_prefix Demo.parse (Demo.mailbox "1 2 3" "OK" "OK")
           Demo.tick Demo.timer (Demo.world (Some "INBOX") []) "1 2 3" []).
  - reflexivity.
  - reflexivity.
  - reflexivity.
Defined.

Lemma scan_email_search_without_data_witness :
  scan_email Demo.parse
    (Demo.custom (Ret tt) (Ret ("OK", [])) (Ret tt) (Ret ("OK", [None])))
    Demo.tick (Demo.world (Some "INBOX") [])
  = (Raise AttributeError,
     with_trace (searched (Demo.world (Some "INBOX") [])) (Demo.world (Some "INBOX") [])).
Proof.
  apply (scan_email_search_without_data Demo.parse
           (Demo.custom (Ret tt) (Ret ("OK", [])) (Ret tt) (Ret ("OK", [None])))
           Demo.tick (Demo.world (Some "INBOX") []) [None]).
  - reflexivity.
  - reflexivity.
  - right. reflexivity.
Defined.

Lemma scan_email_select_raises_witness :
  scan_email Demo.parse
    (Demo.custom (Ret tt) (Ret ("OK", [])) (Raise (LibraryError "imaplib.IMAP4.error"))
       (Ret ("OK", [Some "1"])))
    Demo.tick (Demo.world (Some "Nowhere") [])
  = (Raise (LibraryError "imaplib.IMAP4.error"),
     with_trace [EvSelect (Some "Nowhere")] (Demo.world (Some "Nowhere") [])).
Proof.
  apply (scan_email_select_raises Demo.parse
           (Demo.custom (Ret tt) (Ret ("OK", []))
              (Raise (LibraryError "imaplib.IMAP4.error")) (Ret ("OK", [Some "1"])))
           Demo.tick (Demo.world (Some "Nowhere") [])).
  reflexivity.
Defined.

Lemma scan_email_search_raises_witness :
  scan_email Demo.parse
    (Demo.custom (Ret tt) (Ret ("OK", [])) (Ret tt)
       (Raise (LibraryError "imaplib.IMAP4.abort")))
    Demo.tick (Demo.world (Some "INBOX") [])
  = (Raise (LibraryError "imaplib.IMAP4.abort"),
     with_trace (searched (Demo.world (Some "INBOX") [])) (Demo.world (Some "INBOX") [])).
Proof.
  apply (scan_email_search_raises Demo.parse
           (Demo.custom (Ret tt) (Ret ("OK", [])) (Ret tt)
              (Raise (LibraryError "imaplib.IMAP4.abort")))
           Demo.tick (Demo.world (Some "INBOX") [])).
  - reflexivity.
  - reflexivity.
Defined.

Lemma forward_one_without_plain_part_witness :
  forward_one Demo.parse (Demo.mailbox "2" "OK" "OK") None "2" (Demo.world (Some "INBOX") [])
  = (Raise KeyError, with_trace [EvFetch "2"] (Demo.world (Some "INBOX") [])).
Proof.
  apply (forward_one_without_plain_part Demo.parse (Demo.mailbox "2" "OK" "OK") None "2"
           "OK" "header 2" "raw 2" [FBytes ")"] (Demo.world (Some "INBOX") [])).
  - reflexivity.
  - vm_compute. reflexivity.
Defined.

Lemma forward_one_single_part_witness :
  forward_one Demo.parse (Demo.mailbox "1" "OK" "OK") (Some Demo.timer) "1"
    (Demo.world (Some "INBOX") [])
  = (Ret tt,
     with_trace [EvFetch "1"; EvSend 77 (Str "one")] (Demo.world (Some "INBOX") [])).
Proof.
  apply (forward_one_single_part Demo.parse (Demo.mailbox "1" "OK" "OK") Demo.timer "1"
           "OK" "header 1" "raw 1" [FBytes ")"] "text/plain" "one"
           (Demo.world (Some "INBOX") [])).
  - reflexivity.
  - reflexivity.
Defined.

Lemma imap_trace_login_refused_witness :
  imap_trace
    (Demo.net (Demo.custom (Raise (LibraryError "imaplib.IMAP4.error")) (Ret ("OK", []))
                 (Ret tt) (Ret ("OK", [Some "1"]))))
    (scan_email Demo.parse) Demo.tick (Demo.world (Some "INBOX") [])
  = (Raise (LibraryError "imaplib.IMAP4.error"),
     with_trace [EvConnect "imap.example.org"; EvLogin "user" "secret"]
       (Demo.world (Some "INBOX") [])).
Proof.
  apply (imap_trace_login_refused
           (Demo.net (Demo.custom (Raise (LibraryError "imaplib.IMAP4.error"))
                        (Ret ("OK", [])) (Ret tt) (Ret ("OK", [Some "1"]))))
           (scan_email Demo.parse) Demo.tick (Demo.world (Some "INBOX") [])
           (Demo.custom (Raise (LibraryError "imaplib.IMAP4.error"))
              (Ret ("OK", [])) (Ret tt) (Ret ("OK", [Some "1"])))).
  - reflexivity.
  - reflexivity.
Defined.

Lemma imap_trace_only_traces_witness :
  traced (imap_trace Demo.network (fun c (folder : option string) => mail_select c folder)
            (Some "INBOX")).
Proof.
  apply (imap_trace_only_traces Demo.network
           (fun c (folder : option string) => mail_select c folder) (Some "INBOX")).
  intros c w. exists [EvSelect (Some "INBOX")]. reflexivity.
Defined.

Lemma scan_job_delivers_witness :
  scan_job (Demo.net (Demo.mailbox "1 3 4" "OK" "OK")) Demo.parse Demo.tick
    (Demo.world (Some "INBOX") [])
  = (Ret tt,
     with_trace
       [EvConnect "imap.example.org"; EvLogin "user" "secret";
        EvSelect (Some "INBOX"); EvSearch;
        EvFetch "1"; EvSend 77 (Str "one");
        EvFetch "3"; EvSend 77 (Str "three");
        EvFetch "4"; EvSend 77 (Str "second");
        EvClose; EvLogout]
       (Demo.world (Some "INBOX") [])).
Proof.
  apply (scan_job_delivers (Demo.net (Demo.mailbox "1 3 4" "OK" "OK")) Demo.parse
           Demo.tick Demo.timer (Demo.world (Some "INBOX") [])
           (Demo.mailbox "1 3 4" "OK" "OK") "1 3 4" []
           [Str "one"; Str "three"; Str "second"]).
  - reflexivity.
  - reflexivity.
  - reflexivity.
  - reflexivity.
  - reflexivity.
  - change (Py.bytes_split "1 3 4") with ["1"; "3"; "4"].
    repeat constructor; eapply demo_has_plain; vm_compute; reflexivity.
  - reflexivity.
Defined.

Lemma select_email_folder_out_of_range_witness :
  exists w',
    select_email_folder Demo.decode (Demo.mailbox "" "OK" "OK") tt (Demo.world None ["7"])
    = (Ret tt, w') /\
    w_trace w'
    = w_trace (Demo.world None ["7"]) ++ [EvList]
      ++ listing Demo.lines.*2 1
      ++ [EvPrompt "Select number of folder:"] /\
    st_folder (w_storage w') = Some "INBOX".
Proof.
  apply (select_email_folder_out_of_range Demo.decode (Demo.mailbox "" "OK" "OK")
           (Demo.world None ["7"]) Demo.listed Demo.lines "7" [] 7).
  - reflexivity.
  - exact demo_folder_lines.
  - reflexivity.
  - reflexivity.
  - right. simpl. lia.
Defined.

Lemma select_email_folder_in_range_witness :
  exists w',
    select_email_folder Demo.decode (Demo.mailbox "" "OK" "OK") tt (Demo.world None ["2"])
    = (Ret tt, w') /\
    st_folder (w_storage w') = Some "Sent".
Proof.
  apply (select_email_folder_in_range Demo.decode (Demo.mailbox "" "OK" "OK")
           (Demo.world None ["2"]) Demo.listed Demo.lines "2" [] 2 "Sent").
  - reflexivity.
  - exact demo_folder_lines.
  - reflexivity.
  - reflexivity.
  - lia.
  - reflexivity.
Defined.

Lemma select_email_folder_list_not_ok_witness :
  select_email_folder Demo.decode
    (Demo.custom (Ret tt) (Ret ("NO", [Some "LIST failed"])) (Ret tt) (Ret ("OK", [])))
    tt (Demo.world None ["1"])
  = (Ret tt,
     with_storage (set_folder (Some "INBOX") (Demo.settings None))
       (with_stdin []
          (with_trace [EvList; EvPrompt "Select number of folder:"]
             (Demo.world None ["1"])))).
Proof.
  apply (select_email_folder_list_not_ok Demo.decode
           (Demo.custom (Ret tt) (Ret ("NO", [Some "LIST failed"])) (Ret tt) (Ret ("OK", [])))
           (Demo.world None ["1"]) "NO" [Some "LIST failed"] "1" [] 1).
  - reflexivity.
  - discriminate.
  - reflexivity.
  - reflexivity.
Defined.

Lemma select_email_folder_line_without_separator_witness :
  select_email_folder Demo.decode
    (Demo.custom (Ret tt)
       (Ret ("OK", [Some ("(\HasNoChildren)" +:+ Py.folder_sep +:+ "INBOX");
                    Some "(\HasNoChildren) NIL Archive"]))
       (Ret tt) (Ret ("OK", [])))
    tt (Demo.world None ["1"])
  = (Raise IndexError,
     with_trace
       [EvList; EvPrint ("1. (\HasNoChildren)" +:+ Py.folder_sep +:+ "INBOX")]
       (Demo.world None ["1"])).
Proof.
  apply (select_email_folder_line_without_separator Demo.decode
           (Demo.custom (Ret tt)
              (Ret ("OK", [Some ("(\HasNoChildren)" +:+ Py.folder_sep +:+ "INBOX");
                           Some "(\HasNoChildren) NIL Archive"]))
              (Ret tt) (Ret ("OK", [])))
           (Demo.world None ["1"])
           [Some ("(\HasNoChildren)" +:+ Py.folder_sep +:+ "INBOX")]
           [("INBOX", "(\HasNoChildren)" +:+ Py.folder_sep +:+ "INBOX")]
           "(\HasNoChildren) NIL Archive" []).
  - reflexivity.
  - repeat constructor. eexists.
    split; [reflexivity|]; split; [reflexivity|]; split; vm_compute; reflexivity.
  - reflexivity.
  - vm_compute. reflexivity.
Defined.

Lemma select_email_folder_line_not_utf8_witness :
  select_email_folder Demo.decode
    (Demo.custom (Ret tt)
       (Ret ("OK", [Some ("(\HasNoChildren)" +:+ Py.folder_sep +:+ "INBOX");
                    Some ("(\HasNoChildren)" +:+ Py.folder_sep
                          +:+ String (ascii_of_nat 196) "rger")]))
       (Ret tt) (Ret ("OK", [])))
    tt (Demo.world None ["1"])
  = (Raise UnicodeDecodeError,
     with_trace
       [EvList; EvPrint ("1. (\HasNoChildren)" +:+ Py.folder_sep +:+ "INBOX")]
       (Demo.world None ["1"])).
Proof.
  apply (select_email_folder_line_not_utf8 Demo.decode
           (Demo.custom (Ret tt)
              (Ret ("OK", [Some ("(\HasNoChildren)" +:+ Py.folder_sep +:+ "INBOX");
                           Some ("(\HasNoChildren)" +:+ Py.folder_sep
                                 +:+ String (ascii_of_nat 196) "rger")]))
              (Ret tt) (Ret ("OK", [])))
           (Demo.world None ["1"])
           [Some ("(\HasNoChildren)" +:+ Py.folder_sep +:+ "INBOX")]
           [("INBOX", "(\HasNoChildren)" +:+ Py.folder_sep +:+ "INBOX")]
           ("(\HasNoChildren)" +:+ Py.folder_sep +:+ String (ascii_of_nat 196) "rger") []).
  - reflexivity.
  - repeat constructor. eexists.
    split; [reflexivity|]; split; [reflexivity|]; split; vm_compute; reflexivity.
  - reflexivity.
Defined.

Lemma select_email_folder_value_error_witness :
  select_email_folder Demo.decode (Demo.mailbox "" "OK" "OK") tt (Demo.world None ["abc"])
  = (Raise ValueError,
     with_stdin []
       (with_trace
          (w_trace (Demo.world None ["abc"]) ++ [EvList]
           ++ listing Demo.lines.*2 1
           ++ [EvPrompt "Select number of folder:"])
          (Demo.world None ["abc"]))).
Proof.
  apply (select_email_folder_value_error Demo.decode (Demo.mailbox "" "OK" "OK")
           (Demo.world None ["abc"]) Demo.listed Demo.lines "abc" []).
  - reflexivity.
  - exact demo_folder_lines.
  - reflexivity.
  - reflexivity.
  - reflexivity.
Defined.

Lemma chosen_folder_is_scanned_witness :
  exists t,
    w_trace
      (scan_email Demo.parse (Demo.mailbox "1" "OK" "OK") Demo.tick
         (select_email_folder Demo.decode (Demo.mailbox "" "OK" "OK") tt
            (Demo.world None ["2"])).2).2
    = w_trace
        (select_email_folder Demo.decode (Demo.mailbox "" "OK" "OK") tt
           (Demo.world None ["2"])).2
      ++ EvSelect (Some (chosen Demo.lines.*1 2)) :: t.
Proof.
  apply (chosen_folder_is_scanned Demo.decode (Demo.mailbox "" "OK" "OK") Demo.parse
           (Demo.mailbox "1" "OK" "OK") Demo.tick (Demo.world None ["2"])
           Demo.listed Demo.lines "2" [] 2).
  - reflexivity.
  - exact demo_folder_lines.
  - reflexivity.
  - reflexivity.
Defined.

Lemma remove_job_if_exists_twice_witness :
  remove_job_if_exists "77" (Demo.cmd [])
    (remove_job_if_exists "77" (Demo.cmd []) Demo.armed).2
  = (Ret false, (remove_job_if_exists "77" (Demo.cmd []) Demo.armed).2).
Proof.
  destruct (remove_job_if_exists_twice "77" (Demo.cmd []) (Demo.cmd []) Demo.armed)
    as (_ & _ & _ & Hagain).
  - exact demo_armed_wf.
  - exact Hagain.
Defined.

Lemma set_timer_twice_witness :
  let w1 := (set_timer ScanJob Demo.upd (Demo.cmd ["30"]) (Demo.world None [])).2 in
  let w2 := (set_timer ScanJob Demo.upd (Demo.cmd ["10"]) w1).2 in
  job_interval <$> named (key Demo.upd) (w_jobs w2) = [effective_interval 10] /\
  w_trace w2
  = w_trace (Demo.world None []) ++
    [EvReply 77 "Timer successfully set!";
     EvReply 77 "Timer successfully set! Old one was removed."].
Proof.
  apply (set_timer_twice ScanJob Demo.upd (Demo.cmd ["30"]) (Demo.cmd ["10"])
           (Demo.world None []) "30" 30 "10" 10).
  - apply demo_world_wf.
  - reflexivity.
  - reflexivity.
  - reflexivity.
  - lia.
  - reflexivity.
  - reflexivity.
  - reflexivity.
  - lia.
  - reflexivity.
Defined.

Lemma unset_keeps_other_chats_witness :
  named (key Demo.upd) (w_jobs (unset {| chat_id := 78 |} (Demo.cmd []) Demo.armed).2)
  = named (key Demo.upd) (w_jobs Demo.armed).
Proof.
  apply (unset_keeps_other_chats {| chat_id := 78 |} (Demo.cmd []) Demo.upd Demo.armed).
  - exact demo_armed_wf.
  - simpl. lia.
Defined.

